(** * Recovery-oriented decoding of the recording service's file list

    A shallow embedding of [cloud_recording_utils.go]
    (package [cloud_recording_service]): the bracket-balanced extractor
    [extractJSONArray], the fuzzy literal recognizer
    [looksLikeFalseLiteral] and the mode-dispatched decoder
    [UnmarshalFileList], followed by the properties the specification
    states about them.

    Go strings are byte sequences: they are modelled by [string], whose
    characters ([ascii]) are exactly the 256 byte values.  Indices and
    counters of Go type [int] are [Z]; none of them can leave the range of
    an [int] here, because each is bounded by the length of the text being
    scanned.  Runes ([int32] code points) are [Z]. *)

From Stdlib Require Import ZArith List Bool Lia Ascii String.
Import ListNotations.

Open Scope Z_scope.
Open Scope string_scope.

(** ** Bytes and Go string primitives *)

Module GoString.

(** The double-quote byte (0x22). *)
Definition quote : ascii := "034"%char.

(** The backslash byte (0x5C). *)
Definition backslash : ascii := "092"%char.

Definition lbracket : ascii := "["%char.
Definition rbracket : ascii := "]"%char.

(** [byteVal b] is the numeric value of the byte [b], in [0, 256). *)
Definition byteVal (b : ascii) : Z := Z.of_N (N_of_ascii b).

(** [byteOf z] is the byte of value [z mod 256] (Go's [byte(z)]). *)
Definition byteOf (z : Z) : ascii := ascii_of_N (Z.to_N (z mod 256)).

(** [len(s)] *)
Definition len (s : string) : Z := Z.of_nat (String.length s).

(** [s[i:]] for [0 <= i]. *)
Fixpoint dropBytes (n : nat) (s : string) : string :=
  match n, s with
  | O, _ => s
  | S _, EmptyString => EmptyString
  | S n', String _ t => dropBytes n' t
  end.

(** [s[lo:hi]] for [0 <= lo <= hi <= len(s)]. *)
Definition slice (s : string) (lo hi : Z) : string :=
  substring (Z.to_nat lo) (Z.to_nat (hi - lo)) s.

(** [strings.Index(s, string(c))] for a one-byte needle: the index of the
    first byte equal to [c], or [-1]. *)
Fixpoint IndexFrom (s : string) (c : ascii) (i : Z) : Z :=
  match s with
  | EmptyString => -1
  | String ch t => if Ascii.eqb ch c then i else IndexFrom t c (i + 1)
  end.

Definition Index (s : string) (c : ascii) : Z := IndexFrom s c 0.

(** [strings.HasPrefix] and [strings.HasSuffix]. *)
Fixpoint HasPrefix (s p : string) : bool :=
  match p, s with
  | EmptyString, _ => true
  | String _ _, EmptyString => false
  | String b p', String a s' => Ascii.eqb a b && HasPrefix s' p'
  end.

Definition HasSuffix (s p : string) : bool :=
  (String.length p <=? String.length s)%nat
  && String.eqb (dropBytes (String.length s - String.length p) s) p.

End GoString.

Import GoString.

(** ** The bracket-balanced array extractor *)

(** The body of the [for i := start; i < len(input); i++] loop of
    [extractJSONArray].  [rest] is [input[i:]]; the loop ends when it is
    empty.  [depth], [inString] and [escaped] are the loop's three
    variables. *)
Fixpoint scanLoop (input : string) (start : Z) (rest : string) (i : Z)
    (depth : Z) (inString escaped : bool) : string * bool :=
  match rest with
  | EmptyString => (EmptyString, false)
  | String ch rest' =>
      if inString then
        if escaped then
          scanLoop input start rest' (i + 1) depth inString false
        else if Ascii.eqb ch backslash then
          scanLoop input start rest' (i + 1) depth inString true
        else if Ascii.eqb ch quote then
          scanLoop input start rest' (i + 1) depth false escaped
        else
          scanLoop input start rest' (i + 1) depth inString escaped
      else if Ascii.eqb ch quote then
        scanLoop input start rest' (i + 1) depth true escaped
      else if Ascii.eqb ch lbracket then
        scanLoop input start rest' (i + 1) (depth + 1) inString escaped
      else if Ascii.eqb ch rbracket then
        let depth := depth - 1 in
        if (depth =? 0)%Z then (slice input start (i + 1), true)
        else scanLoop input start rest' (i + 1) depth inString escaped
      else
        scanLoop input start rest' (i + 1) depth inString escaped
  end.

Definition extractJSONArray (input : string) : string * bool :=
  let start := Index input lbracket in
  if (start =? -1)%Z then (EmptyString, false)
  else scanLoop input start (dropBytes (Z.to_nat start) input) start
         0 false false.

(** *** The extractor as the specification describes it

    A second, independent reading of the scan, following the wording of
    the specification: a state made of a nesting depth, an inside-a-string
    flag and an escape-pending flag, advanced one byte at a time,
    with no early exit. *)

Module ExtractorSpec.

Record ScanState : Type := mkScan
  { depthOf : Z; insideString : bool; escapePending : bool }.

Definition initial : ScanState := mkScan 0 false false.

(** One byte of the scan: inside a string only the escape and the closing
    quote matter; outside, a quote opens a string, an unquoted ['['] raises
    the depth and an unquoted [']'] lowers it. *)
Definition step (st : ScanState) (ch : ascii) : ScanState :=
  if insideString st then
    if escapePending st then mkScan (depthOf st) true false
    else if Ascii.eqb ch backslash then mkScan (depthOf st) true true
    else if Ascii.eqb ch quote then mkScan (depthOf st) false false
    else st
  else if Ascii.eqb ch quote then mkScan (depthOf st) true (escapePending st)
  else if Ascii.eqb ch lbracket then
    mkScan (depthOf st + 1) false (escapePending st)
  else if Ascii.eqb ch rbracket then
    mkScan (depthOf st - 1) false (escapePending st)
  else st.

Fixpoint run (st : ScanState) (text : string) : ScanState :=
  match text with
  | EmptyString => st
  | String ch t => run (step st ch) t
  end.

(** The depth counter after the scan has consumed [k] bytes, starting at
    index [start] of [input]. *)
Definition depthAfter (input : string) (start k : nat) : Z :=
  depthOf (run initial (substring start k input)).

(** The number of bytes of [rest] the scan consumes, from state [st],
    until the depth is zero for the first time; [None] when that does not
    happen before the end of [rest]. *)
Fixpoint closeAt (st : ScanState) (rest : string) : option nat :=
  match rest with
  | EmptyString => None
  | String ch t =>
      let st' := step st ch in
      if (depthOf st' =? 0)%Z then Some 1%nat
      else option_map S (closeAt st' t)
  end.

(** [start] is the index of the first occurrence of ['['] in [input]. *)
Definition firstOpen (input : string) (start : nat) : Prop :=
  String.get start input = Some lbracket
  /\ forall j, (j < start)%nat -> String.get j input <> Some lbracket.

(** [input] contains no ['['] at all. *)
Definition noOpen (input : string) : Prop :=
  forall j, String.get j input <> Some lbracket.

(** The scan started at [start] first comes back to depth zero after
    exactly [k] bytes, all of them inside [input]. *)
Definition closesAfter (input : string) (start k : nat) : Prop :=
  (1 <= k)%nat /\ (start + k <= String.length input)%nat
  /\ depthAfter input start k = 0
  /\ forall j, (1 <= j < k)%nat -> depthAfter input start j <> 0.

(** The scan started at [start] reaches the end of [input] without the
    depth coming back to zero. *)
Definition neverCloses (input : string) (start : nat) : Prop :=
  forall k, (1 <= k)%nat -> (start + k <= String.length input)%nat ->
    depthAfter input start k <> 0.

End ExtractorSpec.

(** ** UTF-8, as the Go language and the [unicode/utf8] package define it

    [looksLikeFalseLiteral] ranges over the runes of its input and converts
    a rune slice back to a string; both directions are modelled here. *)

Module UTF8.

Definition RuneError : Z := 0xFFFD.
Definition RuneSelf : Z := 0x80.
Definition MaxRune : Z := 0x10FFFF.

Definition between (lo hi b : Z) : bool := ((lo <=? b) && (b <=? hi))%Z.

(** The table [first] of [unicode/utf8], for a lead byte [b >= RuneSelf]:
    the length of the sequence and the range accepted for its second
    byte, or [None] for a byte that cannot start a sequence. *)
Definition leadInfo (b : Z) : option (nat * Z * Z) :=
  if (b <? 0xC2)%Z then None
  else if (b <=? 0xDF)%Z then Some (2%nat, 0x80, 0xBF)
  else if (b =? 0xE0)%Z then Some (3%nat, 0xA0, 0xBF)
  else if (b <=? 0xEC)%Z then Some (3%nat, 0x80, 0xBF)
  else if (b =? 0xED)%Z then Some (3%nat, 0x80, 0x9F)
  else if (b <=? 0xEF)%Z then Some (3%nat, 0x80, 0xBF)
  else if (b =? 0xF0)%Z then Some (4%nat, 0x90, 0xBF)
  else if (b <=? 0xF3)%Z then Some (4%nat, 0x80, 0xBF)
  else if (b =? 0xF4)%Z then Some (4%nat, 0x80, 0x8F)
  else None.

(** [utf8.DecodeRuneInString]: the first rune of [s] and its width in
    bytes; an invalid or truncated sequence yields [(RuneError, 1)]. *)
Definition DecodeRuneInString (s : string) : Z * nat :=
  match s with
  | EmptyString => (RuneError, 0%nat)
  | String c0 t =>
      let s0 := byteVal c0 in
      if (s0 <? RuneSelf)%Z then (s0, 1%nat)
      else
        match leadInfo s0 with
        | None => (RuneError, 1%nat)
        | Some (sz, lo, hi) =>
            if (String.length s <? sz)%nat then (RuneError, 1%nat)
            else
              match t with
              | EmptyString => (RuneError, 1%nat)
              | String c1 t1 =>
                  let s1 := byteVal c1 in
                  if negb (between lo hi s1) then (RuneError, 1%nat)
                  else if (sz <=? 2)%nat then
                    (Z.lor (Z.shiftl (Z.land s0 0x1F) 6) (Z.land s1 0x3F),
                     2%nat)
                  else
                    match t1 with
                    | EmptyString => (RuneError, 1%nat)
                    | String c2 t2 =>
                        let s2 := byteVal c2 in
                        if negb (between 0x80 0xBF s2) then
                          (RuneError, 1%nat)
                        else if (sz <=? 3)%nat then
                          (Z.lor (Z.lor (Z.shiftl (Z.land s0 0x0F) 12)
                                        (Z.shiftl (Z.land s1 0x3F) 6))
                                 (Z.land s2 0x3F), 3%nat)
                        else
                          match t2 with
                          | EmptyString => (RuneError, 1%nat)
                          | String c3 _ =>
                              let s3 := byteVal c3 in
                              if negb (between 0x80 0xBF s3) then
                                (RuneError, 1%nat)
                              else
                                (Z.lor (Z.lor (Z.lor
                                   (Z.shiftl (Z.land s0 0x07) 18)
                                   (Z.shiftl (Z.land s1 0x3F) 12))
                                   (Z.shiftl (Z.land s2 0x3F) 6))
                                   (Z.land s3 0x3F), 4%nat)
                          end
                    end
              end
        end
  end.

(** The runes a [for _, r := range s] loop visits, in order.  [skip] is
    the number of bytes still belonging to the rune decoded last. *)
Fixpoint runesFrom (skip : nat) (s : string) : list Z :=
  match s with
  | EmptyString => []
  | String _ t =>
      match skip with
      | S k => runesFrom k t
      | O =>
          let (r, size) := DecodeRuneInString s in
          r :: runesFrom (size - 1) t
      end
  end.

Definition runes (s : string) : list Z := runesFrom 0 s.

Definition enc3 (r : Z) : string :=
  String (byteOf (Z.lor 0xE0 (Z.shiftr r 12)))
    (String (byteOf (Z.lor 0x80 (Z.land (Z.shiftr r 6) 0x3F)))
       (String (byteOf (Z.lor 0x80 (Z.land r 0x3F))) EmptyString)).

(** [utf8.AppendRune]: the encoding of one rune; a rune that is not a
    Unicode scalar value is encoded as [RuneError].  The Go code compares
    [uint32(r)], which for a negative rune is above [MaxRune]. *)
Definition encodeRune (r : Z) : string :=
  if between 0 0x7F r then String (byteOf r) EmptyString
  else if between 0 0x7FF r then
    String (byteOf (Z.lor 0xC0 (Z.shiftr r 6)))
      (String (byteOf (Z.lor 0x80 (Z.land r 0x3F))) EmptyString)
  else if ((r <? 0) || (MaxRune <? r) || between 0xD800 0xDFFF r)%Z then
    enc3 RuneError
  else if (r <=? 0xFFFF)%Z then enc3 r
  else
    String (byteOf (Z.lor 0xF0 (Z.shiftr r 18)))
      (String (byteOf (Z.lor 0x80 (Z.land (Z.shiftr r 12) 0x3F)))
         (String (byteOf (Z.lor 0x80 (Z.land (Z.shiftr r 6) 0x3F)))
            (String (byteOf (Z.lor 0x80 (Z.land r 0x3F))) EmptyString))).

(** The conversion [string(rs)] of a rune slice. *)
Fixpoint encodeRunes (rs : list Z) : string :=
  match rs with
  | [] => EmptyString
  | r :: rs' => encodeRune r ++ encodeRunes rs'
  end.

End UTF8.

(** ** The [unicode] package

    On ASCII the three functions are written out, as the package defines
    them there; beyond ASCII they read the Unicode tables, which are taken
    as given. *)

Class UnicodeTables : Type := {
  (** [unicode.IsLetter] on a rune outside ASCII *)
  letterTable : Z -> bool;
  (** [unicode.IsDigit] on a rune outside ASCII *)
  digitTable : Z -> bool;
  (** [unicode.ToLower] on a rune outside ASCII *)
  lowerTable : Z -> Z
}.

Module Unicode.
Section WithTables.
Context {U : UnicodeTables}.

Definition isASCII (r : Z) : bool := ((0 <=? r) && (r <=? 0x7F))%Z.

Definition IsLetter (r : Z) : bool :=
  if isASCII r then UTF8.between 65 90 r || UTF8.between 97 122 r
  else letterTable r.

Definition IsDigit (r : Z) : bool :=
  if (r <=? 0x7F)%Z then UTF8.between 48 57 r else digitTable r.

Definition ToLower (r : Z) : Z :=
  if (r <=? 0x7F)%Z then (if UTF8.between 65 90 r then r + 32 else r)
  else lowerTable r.

End WithTables.
End Unicode.

(** ** The fuzzy literal recognizer *)

Section Recognizer.
Context {U : UnicodeTables}.

(** The [for _, r := range input] loop of [looksLikeFalseLiteral]:
    [rs] holds the runes still to visit, [lettersOnly] the slice built so
    far. *)
Fixpoint lettersLoop (rs : list Z) (lettersOnly : list Z) : list Z :=
  match rs with
  | [] => lettersOnly
  | r :: rs' =>
      if Unicode.IsLetter r then
        lettersLoop rs' (lettersOnly ++ [Unicode.ToLower r])%list
      else if Unicode.IsDigit r then
        lettersLoop rs' lettersOnly
      else
        lettersLoop rs' lettersOnly
  end.

(** The value of the variable [normalized]. *)
Definition normalizedOf (input : string) : string :=
  UTF8.encodeRunes (lettersLoop (UTF8.runes input) []).

Definition looksLikeFalseLiteral (input : string) : bool :=
  let normalized := normalizedOf input in
  if String.eqb normalized "false" then true
  else if (len normalized =? 4)%Z && HasPrefix normalized "f"
          && HasSuffix normalized "lse" then true
  else false.

(** *** The recognizer as the specification describes it: the letters of
    the input, in order, each folded to lower case. *)
Definition letterSkeleton (input : string) : list Z :=
  map Unicode.ToLower (filter Unicode.IsLetter (UTF8.runes input)).

End Recognizer.

(** The code points of an ASCII text. *)
Fixpoint codePoints (s : string) : list Z :=
  match s with
  | EmptyString => []
  | String c t => byteVal c :: codePoints t
  end.

(** ** The decoder *)

(** A Go [(value, error)] pair.  Every error built by this file comes from
    [fmt.Errorf] without wrapping, so an error is its message. *)
Inductive Outcome (A : Type) : Type :=
| Ok (value : A)
| Err (message : string).

Arguments Ok {A} value.
Arguments Err {A} message.

(** What the decoder takes from outside this file: the element types
    [FileDetail] and [FileListEntry], declared elsewhere in the package, and
    the standard-library functions it calls on them.  [json.Unmarshal] is a
    function of the text it is given: a nil slice and an empty slice are
    both the empty list, and an error is the text of [err.Error()]. *)
Class Library : Type := {
  FileDetail : Type;
  FileListEntry : Type;
  (** [json.Unmarshal(data, &rawString)] with [rawString] a [string] *)
  unmarshalString : string -> Outcome string;
  (** [json.Unmarshal(data, &fileList)] with [fileList] a [[]FileDetail] *)
  unmarshalFileDetails : string -> Outcome (list FileDetail);
  (** [json.Unmarshal(data, &fileList)] with [fileList] a [[]FileListEntry] *)
  unmarshalFileListEntries : string -> Outcome (list FileListEntry);
  (** [strings.TrimSpace] *)
  TrimSpace : string -> string
}.

(** The two fields of [ServerResponse] that [UnmarshalFileList] reads; both
    are pointers, [None] is [nil]. *)
Record ServerResponse : Type := mkServerResponse {
  FileListMode : option string;
  FileList : option string
}.

(** The calls the decoder makes, in the order it makes them. *)
Inductive Call : Type :=
| CallUnmarshalString (data : string)
| CallUnmarshalFileDetails (data : string)
| CallUnmarshalFileListEntries (data : string)
| CallExtractJSONArray (input : string)
| CallLooksLikeFalseLiteral (input : string).

(** A computation that records the calls it makes. *)
Definition Traced (A : Type) : Type := (list Call * A)%type.

Definition ret {A : Type} (a : A) : Traced A := ([], a).

Definition bind {A B : Type} (m : Traced A) (k : A -> Traced B) : Traced B :=
  let (t1, a) := m in
  let (t2, b) := k a in
  ((t1 ++ t2)%list, b).

Definition calling {A : Type} (c : Call) (a : A) : Traced A := ([c], a).

Definition callsOf {A : Type} (m : Traced A) : list Call := fst m.
Definition resultOf {A : Type} (m : Traced A) : A := snd m.

Notation "x <- m ;; k" := (bind m (fun x => k))
  (at level 61, m at next level, right associativity).

Section Decoder.
Context {U : UnicodeTables} {L : Library}.

(** The dynamic type of the [interface{}] that [UnmarshalFileList]
    returns with a nil error. *)
Inductive FileListValue : Type :=
| FileDetails (fileList : list FileDetail)
| FileListEntries (fileList : list FileListEntry).

(** The recovery chain entered when the trimmed text does not parse;
    [err] is the error of that first parse.  The second [json.Unmarshal]
    writes to the [fileList] variable the first one was given.  The first
    call checks the syntax of the whole text before it stores anything, so
    it has left the variable nil unless the text is one well-formed JSON
    array with an element of the wrong type; the candidate is then that
    same text, and the second call fails as the first did.  The result of
    a successful second call is therefore a function of the candidate
    alone, as modelled. *)
Definition recover (trimmed err : string) : Traced (Outcome FileListValue) :=
  found <- calling (CallExtractJSONArray trimmed) (extractJSONArray trimmed) ;;
  recovered <-
    (let (candidate, ok) := found : string * bool in
     if ok then
       r2 <- calling (CallUnmarshalFileDetails candidate)
               (unmarshalFileDetails candidate) ;;
       match r2 with
       | Ok fileList => ret (Some fileList)
       | Err _ => ret None
       end
     else ret None) ;;
  match recovered with
  | Some fileList => ret (Ok (FileDetails fileList))
  | None =>
      isFalse <- calling (CallLooksLikeFalseLiteral trimmed)
                   (looksLikeFalseLiteral trimmed) ;;
      if isFalse : bool then ret (Ok (FileDetails []))
      else ret (Err ("error parsing FileList into []FileDetail: " ++ err))
  end.

Definition UnmarshalFileList (sr : ServerResponse)
  : Traced (Outcome FileListValue) :=
  match FileListMode sr, FileList sr with
  | Some mode, Some fileList =>
      if String.eqb mode "string" then
        r <- calling (CallUnmarshalString fileList)
               (unmarshalString fileList) ;;
        match r with
        | Err err => ret (Err ("error parsing FileList into string: " ++ err))
        | Ok rawString =>
            let trimmed := TrimSpace rawString in
            r1 <- calling (CallUnmarshalFileDetails trimmed)
                    (unmarshalFileDetails trimmed) ;;
            match r1 with
            | Err err => recover trimmed err
            | Ok fileList => ret (Ok (FileDetails fileList))
            end
        end
      else if String.eqb mode "json" then
        r <- calling (CallUnmarshalFileListEntries fileList)
               (unmarshalFileListEntries fileList) ;;
        match r with
        | Err err =>
            ret (Err ("error parsing FileList into []FileListEntry: " ++ err))
        | Ok entries => ret (Ok (FileListEntries entries))
        end
      else ret (Err ("unknown FileListMode: " ++ mode))
  | _, _ =>
      ret (Err "FileListMode or FileList are empty, cannot proceed with unmarshaling")
  end.

End Decoder.

(** ** Statements about the decoder *)

Section DecoderStatements.
Context {U : UnicodeTables} {L : Library}.

(** The decoded list has no element. *)
Definition isEmptyList (v : FileListValue) : bool :=
  match v with
  | FileDetails [] => true
  | FileListEntries [] => true
  | _ => false
  end.

(** What the recovery chain ends with when no array was recovered: the
    empty list if the recognizer matches the trimmed text, and otherwise
    the error of the first parse, [err]. *)
Definition lastResort (trimmed err : string) : Outcome FileListValue :=
  if looksLikeFalseLiteral trimmed then Ok (FileDetails [])
  else Err ("error parsing FileList into []FileDetail: " ++ err).

(** The text handed to the recovery chain is false-like, and every
    attempt to parse a JSON array out of it has failed: the parse of the
    text itself, and the parse of the extracted candidate if there is
    one. *)
Definition falseLikeAfterFailures (trimmed : string) : Prop :=
  (exists err, unmarshalFileDetails trimmed = Err err)
  /\ (forall candidate, extractJSONArray trimmed = (candidate, true) ->
        exists err2, unmarshalFileDetails candidate = Err err2)
  /\ looksLikeFalseLiteral trimmed = true.

(** Where an empty list [v] returned for [sr] can come from: a parse that
    yields the empty sequence (of the raw payload in json mode; of the
    trimmed text, or else of the extracted candidate, in string mode), or
    the recognizer once every parse has failed. *)
Definition emptyListSource (sr : ServerResponse) (v : FileListValue)
  : Prop :=
  exists mode payload,
    FileListMode sr = Some mode /\ FileList sr = Some payload
    /\ ((mode = "json" /\ v = FileListEntries []
         /\ unmarshalFileListEntries payload = Ok [])
        \/ (mode = "string" /\ v = FileDetails []
            /\ exists rawString,
                unmarshalString payload = Ok rawString
                /\ (unmarshalFileDetails (TrimSpace rawString) = Ok []
                    \/ (exists err candidate,
                          unmarshalFileDetails (TrimSpace rawString)
                          = Err err
                          /\ extractJSONArray (TrimSpace rawString)
                             = (candidate, true)
                          /\ unmarshalFileDetails candidate = Ok [])
                    \/ falseLikeAfterFailures (TrimSpace rawString)))).

(** The invariant of the specification, as it is stated there: the
    decoder returns an empty list only in string mode, on a payload whose
    text, after all JSON-array parse attempts have failed, matches the
    recognizer. *)
Definition emptyOnlyWhenFalseLike : Prop :=
  forall (sr : ServerResponse) (v : FileListValue),
    resultOf (UnmarshalFileList sr) = Ok v ->
    isEmptyList v = true ->
    exists payload rawString,
      FileListMode sr = Some "string"
      /\ FileList sr = Some payload
      /\ unmarshalString payload = Ok rawString
      /\ falseLikeAfterFailures (TrimSpace rawString).

End DecoderStatements.

(** ** A concrete library, to run the decoder on concrete payloads

    A small stand-in for the standard library, used only where a statement
    is evaluated on explicit inputs.  It answers as [encoding/json] and
    [strings.TrimSpace] do on every text it is given below: a JSON string
    literal made of plain printable ASCII decodes to its contents, the text
    of an empty array decodes to the empty slice, the text of an array
    holding one empty object decodes to one zero-valued record, and the
    other texts used are not JSON arrays.  The messages of its errors are
    its own. *)

Module Sample.

(** No rune outside ASCII occurs in the sample inputs. *)
Definition tables : UnicodeTables :=
  {| letterTable := fun _ => false;
     digitTable := fun _ => false;
     lowerTable := fun r => r |}.

Definition isSpaceByte (c : ascii) : bool :=
  let v := byteVal c in UTF8.between 9 13 v || (v =? 32)%Z.

Fixpoint trimLeft (s : list ascii) : list ascii :=
  match s with
  | c :: t => if isSpaceByte c then trimLeft t else s
  | [] => []
  end.

(** [strings.TrimSpace] on ASCII text. *)
Definition trimSpace (s : string) : string :=
  string_of_list_ascii
    (rev (trimLeft (rev (trimLeft (list_ascii_of_string s))))).

Definition plainByte (c : ascii) : bool :=
  let v := byteVal c in
  UTF8.between 32 126 v && negb (v =? 34)%Z && negb (v =? 92)%Z.

(** A JSON string literal without escapes, and nothing around it. *)
Definition decodeString (data : string) : Outcome string :=
  match list_ascii_of_string data with
  | q :: body =>
      match rev body with
      | q' :: ydob =>
          if Ascii.eqb q quote && Ascii.eqb q' quote && forallb plainByte ydob
          then Ok (string_of_list_ascii (rev ydob))
          else Err "sample: not a plain JSON string literal"
      | [] => Err "sample: not a plain JSON string literal"
      end
  | [] => Err "sample: unexpected end of JSON input"
  end.

(** The JSON arrays [[]] and [[{}]]; the record type has the zero value
    only. *)
Definition decodeArray (data : string) : Outcome (list unit) :=
  if String.eqb data "[]" then Ok []
  else if String.eqb data "[{}]" then Ok [tt]
  else Err ("sample: not a JSON array of records: " ++ data).

Definition library : Library :=
  {| FileDetail := unit;
     FileListEntry := unit;
     unmarshalString := decodeString;
     unmarshalFileDetails := decodeArray;
     unmarshalFileListEntries := decodeArray;
     TrimSpace := trimSpace |}.

(** The JSON string literal whose contents are [s]. *)
Definition quoted (s : string) : string :=
  String quote (s ++ String quote EmptyString).

(** A response in the given mode with the given raw payload. *)
Definition response (mode payload : string) : ServerResponse :=
  mkServerResponse (Some mode) (Some payload).

(** A decoded list of sample records. *)
Definition details (l : list unit) : @FileListValue library :=
  @FileDetails library l.

(** The decoder over the sample library. *)
Definition decode (sr : ServerResponse) :=
  @UnmarshalFileList tables library sr.

Definition recognize (input : string) : bool :=
  @looksLikeFalseLiteral tables input.

End Sample.

(** ** Bracket-balanced texts

    The texts the extractor is meant for, as a grammar: what may stand
    between an opening bracket and the closing bracket that matches it. *)

Module Balance.

(** A byte that leaves the scan untouched when met outside a string
    literal: any byte but the double quote and the two brackets. *)
Definition inertByte (c : ascii) : bool :=
  negb (Ascii.eqb c quote) && negb (Ascii.eqb c lbracket)
  && negb (Ascii.eqb c rbracket).

(** [body] is the inside of a string literal: it has no double quote other
    than escaped ones and does not end on a pending escape.  [escaped]
    tells whether the byte before [body] was an unescaped backslash. *)
Fixpoint literalBody (escaped : bool) (body : string) : bool :=
  match body with
  | EmptyString => negb escaped
  | String c t =>
      if escaped then literalBody false t
      else if Ascii.eqb c backslash then literalBody true t
      else if Ascii.eqb c quote then false
      else literalBody false t
  end.

(** The contents of an array: inert bytes, string literals and nested
    arrays, in any number and order. *)
Inductive Balanced : string -> Prop :=
| BalancedEmpty : Balanced EmptyString
| BalancedByte (c : ascii) :
    inertByte c = true -> Balanced (String c EmptyString)
| BalancedLiteral (body : string) :
    literalBody false body = true ->
    Balanced (String quote (body ++ String quote EmptyString))
| BalancedArray (n : string) :
    Balanced n ->
    Balanced (String lbracket (n ++ String rbracket EmptyString))
| BalancedApp (a b : string) :
    Balanced a -> Balanced b -> Balanced (a ++ b).

(** The array whose contents are [n]. *)
Definition array (n : string) : string :=
  String lbracket (n ++ String rbracket EmptyString).

End Balance.

(** ** ASCII text *)

Module ASCIIText.

Fixpoint allASCII (s : string) : bool :=
  match s with
  | EmptyString => true
  | String c t => (byteVal c <? 0x80)%Z && allASCII t
  end.

Definition isLetterByte (c : ascii) : bool :=
  UTF8.between 65 90 (byteVal c) || UTF8.between 97 122 (byteVal c).

Definition lowerByte (c : ascii) : ascii :=
  if UTF8.between 65 90 (byteVal c) then byteOf (byteVal c + 32) else c.

(** The ASCII letters of a text, in order, in lower case. *)
Fixpoint letters (s : string) : string :=
  match s with
  | EmptyString => EmptyString
  | String c t =>
      if isLetterByte c then String (lowerByte c) (letters t) else letters t
  end.

(** No byte of the text is an ASCII letter. *)
Fixpoint letterFree (s : string) : bool :=
  match s with
  | EmptyString => true
  | String c t => negb (isLetterByte c) && letterFree t
  end.

Definition isDigitByte (c : ascii) : bool := UTF8.between 48 57 (byteVal c).

Fixpoint allDigits (s : string) : bool :=
  match s with
  | EmptyString => true
  | String c t => isDigitByte c && allDigits t
  end.

(** The number a text of decimal digits denotes. *)
Fixpoint decimalFrom (acc : Z) (s : string) : Z :=
  match s with
  | EmptyString => acc
  | String c t => decimalFrom (acc * 10 + (byteVal c - 48)) t
  end.

Definition decimalValue (s : string) : Z := decimalFrom 0 s.

End ASCIIText.

(** ** The other functions of the file *)

Module Strconv.

Definition digit (d : Z) : ascii := byteOf (48 + d).

(** The digit loop of [strconv.FormatInt] in base 10, filling the buffer
    from its end: [for u >= 10 { ... u /= 10 }] and then the leading digit.
    An [int] has at most 20 digits, the fuel [Itoa] gives. *)
Fixpoint formatBits (fuel : nat) (u : Z) (buf : string) : string :=
  match fuel with
  | O => buf
  | S fuel' =>
      if (u <? 10)%Z then String (digit u) buf
      else formatBits fuel' (u / 10) (String (digit (u mod 10)) buf)
  end.

(** [strconv.Itoa] *)
Definition Itoa (i : Z) : string :=
  if (i <? 0)%Z then String "-"%char (formatBits 20 (- i) EmptyString)
  else formatBits 20 i EmptyString.

End Strconv.

(** [GenerateUID], as a function of the number [rand.Intn(4294967294)]
    returns, which lies in [0, 4294967294). *)
Definition GenerateUID (draw : Z) : string :=
  let uid := draw + 1 in
  Strconv.Itoa uid.

Definition validRecordingModes : list string := ["individual"; "mix"; "web"].

(** The [for _, mode := range validRecordingModes] loop. *)
Fixpoint modeLoop (modes : list string) (modeToCheck : string) : bool :=
  match modes with
  | [] => false
  | mode :: rest =>
      if String.eqb mode modeToCheck then true else modeLoop rest modeToCheck
  end.

Definition ValidateRecordingMode (modeToCheck : string) : bool :=
  modeLoop validRecordingModes modeToCheck.

(** ** The runs of the decoder

    Every way through [UnmarshalFileList], read off its branches: the calls
    made, in order, and the pair returned. *)

Section DecoderRunsSpec.
Context {U : UnicodeTables} {L : Library}.

Inductive DecoderRun (sr : ServerResponse)
  : Traced (Outcome FileListValue) -> Prop :=
| RunMissingInput :
    FileListMode sr = None \/ FileList sr = None ->
    DecoderRun sr
      ([], Err "FileListMode or FileList are empty, cannot proceed with unmarshaling")
| RunUnknownMode (mode payload : string) :
    FileListMode sr = Some mode -> FileList sr = Some payload ->
    mode <> "string" -> mode <> "json" ->
    DecoderRun sr ([], Err ("unknown FileListMode: " ++ mode))
| RunEntries (payload : string) (entries : list FileListEntry) :
    FileListMode sr = Some "json" -> FileList sr = Some payload ->
    unmarshalFileListEntries payload = Ok entries ->
    DecoderRun sr
      ([CallUnmarshalFileListEntries payload], Ok (FileListEntries entries))
| RunEntriesError (payload err : string) :
    FileListMode sr = Some "json" -> FileList sr = Some payload ->
    unmarshalFileListEntries payload = Err err ->
    DecoderRun sr
      ([CallUnmarshalFileListEntries payload],
       Err ("error parsing FileList into []FileListEntry: " ++ err))
| RunEncodingError (payload err : string) :
    FileListMode sr = Some "string" -> FileList sr = Some payload ->
    unmarshalString payload = Err err ->
    DecoderRun sr
      ([CallUnmarshalString payload],
       Err ("error parsing FileList into string: " ++ err))
| RunParsed (payload rawString : string) (fileList : list FileDetail) :
    FileListMode sr = Some "string" -> FileList sr = Some payload ->
    unmarshalString payload = Ok rawString ->
    unmarshalFileDetails (TrimSpace rawString) = Ok fileList ->
    DecoderRun sr
      ([CallUnmarshalString payload;
        CallUnmarshalFileDetails (TrimSpace rawString)],
       Ok (FileDetails fileList))
| RunRecovered (payload rawString err candidate : string)
    (fileList : list FileDetail) :
    FileListMode sr = Some "string" -> FileList sr = Some payload ->
    unmarshalString payload = Ok rawString ->
    unmarshalFileDetails (TrimSpace rawString) = Err err ->
    extractJSONArray (TrimSpace rawString) = (candidate, true) ->
    unmarshalFileDetails candidate = Ok fileList ->
    DecoderRun sr
      ([CallUnmarshalString payload;
        CallUnmarshalFileDetails (TrimSpace rawString);
        CallExtractJSONArray (TrimSpace rawString);
        CallUnmarshalFileDetails candidate],
       Ok (FileDetails fileList))
| RunCandidateRejected (payload rawString err candidate err2 : string) :
    FileListMode sr = Some "string" -> FileList sr = Some payload ->
    unmarshalString payload = Ok rawString ->
    unmarshalFileDetails (TrimSpace rawString) = Err err ->
    extractJSONArray (TrimSpace rawString) = (candidate, true) ->
    unmarshalFileDetails candidate = Err err2 ->
    DecoderRun sr
      ([CallUnmarshalString payload;
        CallUnmarshalFileDetails (TrimSpace rawString);
        CallExtractJSONArray (TrimSpace rawString);
        CallUnmarshalFileDetails candidate;
        CallLooksLikeFalseLiteral (TrimSpace rawString)],
       lastResort (TrimSpace rawString) err)
| RunNoCandidate (payload rawString err candidate : string) :
    FileListMode sr = Some "string" -> FileList sr = Some payload ->
    unmarshalString payload = Ok rawString ->
    unmarshalFileDetails (TrimSpace rawString) = Err err ->
    extractJSONArray (TrimSpace rawString) = (candidate, false) ->
    DecoderRun sr
      ([CallUnmarshalString payload;
        CallUnmarshalFileDetails (TrimSpace rawString);
        CallExtractJSONArray (TrimSpace rawString);
        CallLooksLikeFalseLiteral (TrimSpace rawString)],
       lastResort (TrimSpace rawString) err).

(** Where a FileDetail list returned for [sr] comes from: the parse of the
    trimmed text; or the parse of the extracted candidate, a complete
    array of the grammar; or the recognizer, for the empty list. *)
Definition detailsProvenance (sr : ServerResponse)
    (fileList : list FileDetail) : Prop :=
  exists payload rawString,
    FileListMode sr = Some "string" /\ FileList sr = Some payload
    /\ unmarshalString payload = Ok rawString
    /\ (unmarshalFileDetails (TrimSpace rawString) = Ok fileList
        \/ (exists err n,
              unmarshalFileDetails (TrimSpace rawString) = Err err
              /\ extractJSONArray (TrimSpace rawString)
                 = (Balance.array n, true)
              /\ Balance.Balanced n
              /\ unmarshalFileDetails (Balance.array n) = Ok fileList)
        \/ (fileList = []
            /\ falseLikeAfterFailures (TrimSpace rawString))).

(** The five kinds of error, each with the failure it reports. *)
Definition errorKind (sr : ServerResponse) (msg : string) : Prop :=
  ((FileListMode sr = None \/ FileList sr = None)
   /\ msg = "FileListMode or FileList are empty, cannot proceed with unmarshaling")
  \/ (exists mode,
        FileListMode sr = Some mode /\ mode <> "string" /\ mode <> "json"
        /\ msg = "unknown FileListMode: " ++ mode)
  \/ (exists payload err,
        FileListMode sr = Some "json" /\ FileList sr = Some payload
        /\ unmarshalFileListEntries payload = Err err
        /\ msg = "error parsing FileList into []FileListEntry: " ++ err)
  \/ (exists payload err,
        FileListMode sr = Some "string" /\ FileList sr = Some payload
        /\ unmarshalString payload = Err err
        /\ msg = "error parsing FileList into string: " ++ err)
  \/ (exists payload rawString err,
        FileListMode sr = Some "string" /\ FileList sr = Some payload
        /\ unmarshalString payload = Ok rawString
        /\ unmarshalFileDetails (TrimSpace rawString) = Err err
        /\ looksLikeFalseLiteral (TrimSpace rawString) = false
        /\ msg = "error parsing FileList into []FileDetail: " ++ err).




End DecoderRunsSpec.

(** * Properties *)

(** ** Go string primitives *)

Lemma byteVal_range (b : ascii) : 0 <= byteVal b < 256.
Proof.
  unfold byteVal. pose proof (N_ascii_bounded b) as H. lia.
Qed.

Lemma byteVal_byteOf (z : Z) : byteVal (byteOf z) = z mod 256.
Proof.
  unfold byteVal, byteOf.
  assert (Hr : 0 <= z mod 256 < 256) by (apply Z.mod_pos_bound; lia).
  rewrite N_ascii_embedding by lia.
  apply Z2N.id; lia.
Qed.

Lemma byteOf_byteVal (b : ascii) : byteOf (byteVal b) = b.
Proof.
  unfold byteOf. rewrite Z.mod_small by apply byteVal_range.
  unfold byteVal. rewrite N2Z.id. apply ascii_N_embedding.
Qed.

Lemma byteVal_inj (a b : ascii) : byteVal a = byteVal b -> a = b.
Proof.
  intros H. rewrite <- (byteOf_byteVal a), <- (byteOf_byteVal b).
  now rewrite H.
Qed.

Lemma dropBytes_get (n : nat) (s : string) (c : ascii) :
  String.get n s = Some c ->
  exists t, dropBytes n s = String c t.
Proof.
  revert s. induction n as [|n IH]; intros [|a s] H; simpl in *;
    try discriminate.
  - injection H as ->. now exists s.
  - now apply IH.
Qed.

Lemma substring_dropBytes (n k : nat) (s : string) :
  substring n k s = substring 0 k (dropBytes n s).
Proof.
  revert s. induction n as [|n IH]; intros s; simpl.
  - reflexivity.
  - destruct s as [|a s].
    + now destruct k.
    + apply IH.
Qed.

Lemma dropBytes_length (n : nat) (s : string) :
  String.length (dropBytes n s) = (String.length s - n)%nat.
Proof.
  revert s. induction n as [|n IH]; intros [|a s]; simpl; auto.
Qed.

Lemma slice_substring (s : string) (start k : nat) :
  slice s (Z.of_nat start) (Z.of_nat start + Z.of_nat k) = substring start k s.
Proof.
  unfold slice. f_equal; lia.
Qed.

(** [Index] returns [-1] exactly on a text without the byte, and otherwise
    the position of its first occurrence. *)
Lemma IndexFrom_cases (s : string) (c : ascii) (i : Z) :
  (IndexFrom s c i = -1 /\ forall j, String.get j s <> Some c)
  \/ (exists n, IndexFrom s c i = i + Z.of_nat n
                /\ String.get n s = Some c
                /\ forall j, (j < n)%nat -> String.get j s <> Some c)
  \/ i < 0.
Proof.
  destruct (Z_lt_le_dec i 0) as [Hneg|Hi]; [now right; right|].
  revert i Hi. induction s as [|a s IH]; intros i Hi; simpl.
  - left. split; [reflexivity|]. intros [|j]; discriminate.
  - destruct (Ascii.eqb_spec a c) as [->|Hne].
    + right; left. exists 0%nat. repeat split; simpl; try lia.
    + destruct (IH (i + 1) ltac:(lia)) as [[H1 H2]|[(n & H1 & H2 & H3)|H]];
        [left|right; left|lia].
      * split; [assumption|]. intros [|j]; simpl; [congruence|apply H2].
      * exists (S n). repeat split; simpl; try assumption; try lia.
        intros [|j] Hj; simpl; [congruence|apply H3; lia].
Qed.

Lemma Index_cases (s : string) (c : ascii) :
  (Index s c = -1 /\ forall j, String.get j s <> Some c)
  \/ (exists n, Index s c = Z.of_nat n
                /\ String.get n s = Some c
                /\ forall j, (j < n)%nat -> String.get j s <> Some c).
Proof.
  unfold Index.
  destruct (IndexFrom_cases s c 0) as [H|[(n & H1 & H2 & H3)|H]];
    [now left| |lia].
  right. exists n. now rewrite H1.
Qed.

(** ** The extractor *)

Section ExtractorFacts.
Import ExtractorSpec.

Lemma firstOpen_unique (input : string) (a b : nat) :
  firstOpen input a -> firstOpen input b -> a = b.
Proof.
  intros [Ha Ha'] [Hb Hb'].
  destruct (Nat.lt_trichotomy a b) as [H|[H|H]]; [|assumption|].
  - now apply Hb' in H.
  - now apply Ha' in H.
Qed.

(** One turn of the loop is one [step] of the specification's scan,
    followed by the test for depth zero. *)
Lemma scanLoop_step (input : string) (start i : Z) (ch : ascii)
    (rest : string) (st : ScanState) :
  1 <= depthOf st ->
  scanLoop input start (String ch rest) i
    (depthOf st) (insideString st) (escapePending st)
  = if (depthOf (step st ch) =? 0)%Z then (slice input start (i + 1), true)
    else scanLoop input start rest (i + 1) (depthOf (step st ch))
           (insideString (step st ch)) (escapePending (step st ch)).
Proof.
  intros Hd. destruct st as [d inS esc]; simpl in *. unfold step; simpl.
  destruct inS; simpl.
  - destruct esc; simpl.
    + destruct (Z.eqb_spec d 0); [lia|reflexivity].
    + destruct (Ascii.eqb ch backslash); simpl.
      * destruct (Z.eqb_spec d 0); [lia|reflexivity].
      * destruct (Ascii.eqb ch quote); simpl;
          destruct (Z.eqb_spec d 0); try lia; reflexivity.
  - destruct (Ascii.eqb ch quote); simpl.
    + destruct (Z.eqb_spec d 0); [lia|reflexivity].
    + destruct (Ascii.eqb ch lbracket); simpl.
      * destruct (Z.eqb_spec (d + 1) 0); [lia|reflexivity].
      * destruct (Ascii.eqb ch rbracket); simpl.
        -- reflexivity.
        -- destruct (Z.eqb_spec d 0); [lia|reflexivity].
Qed.

Lemma step_depth_positive (st : ScanState) (ch : ascii) :
  1 <= depthOf st -> depthOf (step st ch) <> 0 -> 1 <= depthOf (step st ch).
Proof.
  destruct st as [d inS esc]; unfold step; simpl.
  destruct inS, esc, (Ascii.eqb ch backslash), (Ascii.eqb ch quote),
    (Ascii.eqb ch lbracket), (Ascii.eqb ch rbracket); simpl; lia.
Qed.

(** The loop returns at the byte [closeAt] designates. *)
Lemma scanLoop_closeAt (input : string) (start : Z) (rest : string) :
  forall (i : Z) (st : ScanState),
    1 <= depthOf st ->
    scanLoop input start rest i
      (depthOf st) (insideString st) (escapePending st)
    = match closeAt st rest with
      | Some k => (slice input start (i + Z.of_nat k), true)
      | None => (EmptyString, false)
      end.
Proof.
  induction rest as [|ch rest IH]; intros i st Hd.
  - reflexivity.
  - rewrite scanLoop_step by assumption. simpl closeAt.
    destruct (Z.eqb_spec (depthOf (step st ch)) 0) as [Hz|Hnz].
    + reflexivity.
    + rewrite IH by now apply step_depth_positive.
      destruct (closeAt (step st ch) rest) as [k|]; simpl; [|reflexivity].
      do 2 f_equal. lia.
Qed.

Lemma run_prefix_S (st : ScanState) (ch : ascii) (rest : string) (k : nat) :
  run st (substring 0 (S k) (String ch rest))
  = run (step st ch) (substring 0 k rest).
Proof. reflexivity. Qed.

Lemma substring_0_0 (s : string) : substring 0 0 s = EmptyString.
Proof. now destruct s. Qed.

(** [closeAt] finds the least count of bytes after which the depth is
    zero. *)
Lemma closeAt_Some (rest : string) :
  forall (st : ScanState) (k : nat),
    closeAt st rest = Some k <->
    (1 <= k <= String.length rest)%nat
    /\ depthOf (run st (substring 0 k rest)) = 0
    /\ forall j, (1 <= j < k)%nat ->
         depthOf (run st (substring 0 j rest)) <> 0.
Proof.
  induction rest as [|ch rest IH]; intros st k; simpl closeAt.
  - split; [discriminate|]. simpl. lia.
  - destruct (Z.eqb_spec (depthOf (step st ch)) 0) as [Hz|Hnz].
    + split.
      * intros [= <-]. split; [simpl; lia|]. split.
        -- rewrite run_prefix_S, substring_0_0. exact Hz.
        -- intros j Hj. lia.
      * intros (Hk & Hd & Hmin).
        destruct (Nat.eq_dec k 1) as [->|Hne]; [reflexivity|].
        exfalso. apply (Hmin 1%nat); [lia|].
        rewrite run_prefix_S, substring_0_0. exact Hz.
    + split.
      * intros H. destruct (closeAt (step st ch) rest) as [k'|] eqn:E;
          [|discriminate].
        injection H as <-. apply (IH (step st ch)) in E.
        destruct E as (Hk & Hd & Hmin).
        split; [simpl; lia|]. split.
        -- now rewrite run_prefix_S.
        -- intros [|[|j]] Hj; [lia| |].
           ++ now rewrite run_prefix_S, substring_0_0.
           ++ rewrite run_prefix_S. apply Hmin. lia.
      * intros (Hk & Hd & Hmin). simpl in Hk.
        destruct k as [|k]; [lia|].
        destruct k as [|k].
        -- rewrite run_prefix_S, substring_0_0 in Hd. contradiction.
        -- rewrite run_prefix_S in Hd.
           assert (E : closeAt (step st ch) rest = Some (S k)).
           { apply (IH (step st ch)). split; [lia|]. split; [assumption|].
             intros j Hj. specialize (Hmin (S j) ltac:(lia)).
             now rewrite run_prefix_S in Hmin. }
           now rewrite E.
Qed.

Lemma closeAt_None (rest : string) :
  forall (st : ScanState),
    closeAt st rest = None <->
    forall k, (1 <= k <= String.length rest)%nat ->
      depthOf (run st (substring 0 k rest)) <> 0.
Proof.
  intros st. split.
  - intros HN k Hk Hd.
    assert (Hex : exists k', closeAt st rest = Some k').
    { clear HN. revert st k Hk Hd.
      induction rest as [|ch rest IH]; intros st k Hk Hd;
        simpl closeAt; simpl in Hk; [lia|].
      destruct (Z.eqb_spec (depthOf (step st ch)) 0) as [Hz|Hnz];
        [now exists 1%nat|].
      destruct k as [|[|k]]; [lia| |].
      - rewrite run_prefix_S, substring_0_0 in Hd. contradiction.
      - rewrite run_prefix_S in Hd.
        destruct (IH (step st ch) (S k) ltac:(lia) Hd) as [k' ->].
        now exists (S k'). }
    destruct Hex as [k' Hk']. congruence.
  - intros H. destruct (closeAt st rest) as [k|] eqn:E; [|reflexivity].
    apply closeAt_Some in E. destruct E as (Hk & Hd & _).
    now apply H in Hd.
Qed.

End ExtractorFacts.

Section ExtractorCorrect.
Import ExtractorSpec.

Lemma Index_firstOpen (input : string) (start : nat) :
  firstOpen input start -> Index input lbracket = Z.of_nat start.
Proof.
  intros Hf.
  destruct (Index_cases input lbracket) as [[_ Hno]|(n & Hn & Hget & Hmin)].
  - destruct Hf as [Hget _]. now apply Hno in Hget.
  - rewrite Hn. f_equal. symmetry.
    apply (firstOpen_unique input start n Hf). now split.
Qed.

(** The result of [extractJSONArray] once the first bracket is located:
    the scan of the text from that bracket on decides it. *)
Lemma extractJSONArray_closeAt (input : string) (start : nat) :
  firstOpen input start ->
  extractJSONArray input
  = match closeAt initial (dropBytes start input) with
    | Some k => (substring start k input, true)
    | None => (EmptyString, false)
    end.
Proof.
  intros Hf. unfold extractJSONArray.
  rewrite (Index_firstOpen _ _ Hf).
  destruct (Z.eqb_spec (Z.of_nat start) (-1)) as [Hm|_]; [lia|].
  rewrite Nat2Z.id.
  destruct Hf as [Hget _].
  destruct (dropBytes_get _ _ _ Hget) as [rest ->].
  change (scanLoop input (Z.of_nat start) (String lbracket rest)
            (Z.of_nat start) 0 false false)
    with (scanLoop input (Z.of_nat start) rest (Z.of_nat start + 1)
            (depthOf (mkScan 1 false false))
            (insideString (mkScan 1 false false))
            (escapePending (mkScan 1 false false))).
  rewrite scanLoop_closeAt by (simpl; lia).
  change (closeAt initial (String lbracket rest))
    with (option_map S (closeAt (mkScan 1 false false) rest)).
  destruct (closeAt (mkScan 1 false false) rest) as [k|]; simpl option_map;
    cbv iota; [|reflexivity].
  rewrite <- slice_substring. do 2 f_equal. lia.
Qed.

Lemma closesAfter_closeAt (input : string) (start k : nat) :
  closesAfter input start k <->
  closeAt initial (dropBytes start input) = Some k.
Proof.
  unfold closesAfter, depthAfter. rewrite closeAt_Some, dropBytes_length.
  rewrite <- substring_dropBytes.
  split; intros (H1 & H2 & H3).
  - destruct H3 as [H3 H4]. repeat split; try lia; try assumption.
    intros j Hj. rewrite <- substring_dropBytes. now apply H4.
  - repeat split; try lia; try assumption.
    intros j Hj. rewrite substring_dropBytes. now apply H3.
Qed.

Lemma neverCloses_closeAt (input : string) (start : nat) :
  (start <= String.length input)%nat ->
  neverCloses input start <->
  closeAt initial (dropBytes start input) = None.
Proof.
  intros Hs. unfold neverCloses, depthAfter.
  rewrite closeAt_None, dropBytes_length.
  split; intros H k.
  - intros Hk. rewrite <- substring_dropBytes. apply H; lia.
  - intros H1 H2. rewrite substring_dropBytes. apply H; lia.
Qed.

Lemma get_Some_lt (s : string) (n : nat) (c : ascii) :
  String.get n s = Some c -> (n < String.length s)%nat.
Proof.
  revert n. induction s as [|a s IH]; intros [|n] H; simpl in *;
    try discriminate; try lia.
  apply IH in H. lia.
Qed.

Lemma get_dropBytes (n j : nat) (s : string) :
  String.get j (dropBytes n s) = String.get (n + j) s.
Proof.
  revert s. induction n as [|n IH]; intros s; simpl; [reflexivity|].
  destruct s as [|a s]; [now destruct j|apply IH].
Qed.

(** Only an unquoted closing bracket brings a positive depth to zero. *)
Lemma step_to_zero (st : ScanState) (ch : ascii) :
  1 <= depthOf st -> depthOf (step st ch) = 0 ->
  ch = rbracket /\ insideString st = false.
Proof.
  destruct st as [d inS esc]; unfold step; simpl. intros Hd.
  destruct inS; simpl.
  - destruct esc, (Ascii.eqb ch backslash), (Ascii.eqb ch quote); simpl; lia.
  - destruct (Ascii.eqb ch quote); simpl; [lia|].
    destruct (Ascii.eqb ch lbracket); simpl; [lia|].
    destruct (Ascii.eqb_spec ch rbracket); simpl; [now split|lia].
Qed.

Lemma closeAt_rbracket (rest : string) :
  forall (st : ScanState) (k : nat),
    1 <= depthOf st -> closeAt st rest = Some k ->
    String.get (k - 1) rest = Some rbracket.
Proof.
  induction rest as [|ch rest IH]; intros st k Hd; simpl closeAt;
    [discriminate|].
  destruct (Z.eqb_spec (depthOf (step st ch)) 0) as [Hz|Hnz].
  - intros [= <-]. simpl. f_equal. now apply (step_to_zero st).
  - destruct (closeAt (step st ch) rest) as [k'|] eqn:E; [|discriminate].
    intros [= <-].
    assert (Hk' : (1 <= k')%nat) by (apply closeAt_Some in E; lia).
    apply IH in E; [|now apply step_depth_positive].
    destruct k' as [|k']; [lia|]. simpl in *.
    now rewrite Nat.sub_0_r in E.
Qed.

Lemma closesAfter_rbracket (input : string) (start k : nat) :
  firstOpen input start -> closesAfter input start k ->
  String.get (start + k - 1) input = Some rbracket.
Proof.
  intros [Hget _] Hc. apply closesAfter_closeAt in Hc.
  destruct (dropBytes_get _ _ _ Hget) as [rest Hrest].
  pose proof (get_dropBytes start (k - 1) input) as Hg.
  rewrite Hrest in *. simpl closeAt in Hc.
  change (depthOf (step initial lbracket) =? 0)%Z with false in Hc.
  cbv iota in Hc.
  destruct (closeAt (step initial lbracket) rest) as [k'|] eqn:E;
    [|discriminate].
  injection Hc as <-.
  assert (Hk' : (1 <= k')%nat) by (apply closeAt_Some in E; lia).
  apply closeAt_rbracket in E; [|simpl; lia].
  replace (start + S k' - 1)%nat with (start + (S k' - 1))%nat by lia.
  rewrite <- Hg. simpl. destruct k' as [|k']; [lia|].
  simpl in E. now rewrite Nat.sub_0_r in E.
Qed.

(** Every text falls under one of the three cases of the extractor. *)
Lemma extractor_cases (input : string) :
  noOpen input
  \/ exists start, firstOpen input start
       /\ ((exists k, closesAfter input start k) \/ neverCloses input start).
Proof.
  destruct (Index_cases input lbracket) as [[_ Hno]|(n & _ & Hget & Hmin)].
  - now left.
  - right. exists n. split; [now split|].
    destruct (closeAt initial (dropBytes n input)) as [k|] eqn:E.
    + left. exists k. now apply closesAfter_closeAt.
    + right. apply neverCloses_closeAt; [|assumption].
      apply get_Some_lt in Hget. lia.
Qed.

End ExtractorCorrect.

Section ExtractorClaims.
Import ExtractorSpec.

(** Claim C3.  For every text, [extractJSONArray] scans forward from the
    first occurrence of the opening bracket, tracking the nesting depth
    and the in-string and escape flags, and returns found = true with
    exactly the substring from that first opening bracket through the
    closing bracket at which the depth first returns to zero, inclusive;
    if the text contains no opening bracket at all, or the scan reaches the
    end of the input without the depth returning to zero, it returns
    found = false.  Every text falls under one of these cases. *)
Theorem extractJSONArray_first_balanced (input : string) :
  (noOpen input -> extractJSONArray input = (EmptyString, false))
  /\ (forall start, firstOpen input start ->
        (forall k, closesAfter input start k ->
           extractJSONArray input = (substring start k input, true)
           /\ String.get (start + k - 1) input = Some rbracket)
        /\ (neverCloses input start ->
            extractJSONArray input = (EmptyString, false)))
  /\ (noOpen input
      \/ exists start, firstOpen input start
           /\ ((exists k, closesAfter input start k)
               \/ neverCloses input start)).
Proof.
  split; [|split; [|apply extractor_cases]].
  - intros Hno. unfold extractJSONArray.
    destruct (Index_cases input lbracket) as [[-> _]|(n & _ & Hget & _)].
    + reflexivity.
    + now apply Hno in Hget.
  - intros start Hf. rewrite (extractJSONArray_closeAt _ _ Hf). split.
    + intros k Hc. split.
      * apply closesAfter_closeAt in Hc. now rewrite Hc.
      * now apply closesAfter_rbracket.
    + intros Hn. apply neverCloses_closeAt in Hn as ->; [reflexivity|].
      destruct Hf as [Hget _]. apply get_Some_lt in Hget. lia.
Qed.

(** The three cases of C3 on explicit texts: no bracket at all, an array
    followed by diagnostic text, and an array that is never closed. *)
Lemma extractJSONArray_first_balanced_witness :
  (noOpen "abc" /\ extractJSONArray "abc" = (EmptyString, false))
  /\ (firstOpen "ab [1,[2],3] tail ]" 3
      /\ closesAfter "ab [1,[2],3] tail ]" 3 9
      /\ extractJSONArray "ab [1,[2],3] tail ]" = ("[1,[2],3]", true)
      /\ String.get 11 "ab [1,[2],3] tail ]" = Some rbracket)
  /\ (firstOpen "[[1]" 0 /\ neverCloses "[[1]" 0
      /\ extractJSONArray "[[1]" = (EmptyString, false)).
Proof.
  assert (H1 : noOpen "abc").
  { intros [|[|[|[|j]]]]; simpl; discriminate. }
  assert (H2 : firstOpen "ab [1,[2],3] tail ]" 3).
  { split; [reflexivity|].
    intros [|[|[|j]]] Hj; simpl; try discriminate; lia. }
  assert (H3 : closesAfter "ab [1,[2],3] tail ]" 3 9).
  { split; [lia|]. split; [simpl; lia|]. split; [reflexivity|].
    intros [|[|[|[|[|[|[|[|[|j]]]]]]]]] Hj; try lia;
      vm_compute; discriminate. }
  assert (H4 : firstOpen "[[1]" 0).
  { split; [reflexivity|]. intros j Hj; lia. }
  assert (H5 : neverCloses "[[1]" 0).
  { intros [|[|[|[|[|k]]]]] Hk Hlen; simpl in Hlen; try lia;
      vm_compute; discriminate. }
  split; [|split].
  - split; [exact H1|].
    exact (proj1 (extractJSONArray_first_balanced "abc") H1).
  - split; [exact H2|]. split; [exact H3|].
    exact (proj1 (proj1 (proj2 (extractJSONArray_first_balanced
                                  "ab [1,[2],3] tail ]")) 3%nat H2)
             9%nat H3).
  - split; [exact H4|]. split; [exact H5|].
    exact (proj2 (proj1 (proj2 (extractJSONArray_first_balanced "[[1]"))
                    0%nat H4) H5).
Defined.

(** Claim C10.  [extractJSONArray] begins its scan at the first opening
    bracket of the input with the in-string flag false, whatever precedes
    that bracket: its result is the result on the text from that bracket
    on, so a bracket lying inside a quote-delimited region is scanned as
    if unquoted.  Consequently there are inputs containing a complete,
    balanced array for which extraction returns found = false, because an
    earlier bracket inside a string literal opens a scan that never
    closes. *)
Theorem extractJSONArray_ignores_quotes_before_first_bracket :
  (forall input,
     extractJSONArray input
     = if (Index input lbracket =? -1)%Z then (EmptyString, false)
       else extractJSONArray
              (dropBytes (Z.to_nat (Index input lbracket)) input))
  /\ (forall input start,
        firstOpen input start ->
        extractJSONArray input
        = scanLoop input (Z.of_nat start) (dropBytes start input)
            (Z.of_nat start) 0 false false)
  /\ (let input := Sample.quoted "a[b" ++ " [1]" in
      firstOpen input 2
      /\ insideString (run initial (substring 0 2 input)) = true
      /\ substring 6 3 input = "[1]"
      /\ extractJSONArray "[1]" = ("[1]", true)
      /\ extractJSONArray input = (EmptyString, false)).
Proof.
  split; [|split].
  - intros input.
    destruct (Index_cases input lbracket) as [[Hm _]|(n & Hn & Hget & Hmin)].
    + unfold extractJSONArray. now rewrite Hm.
    + rewrite Hn, Nat2Z.id.
      destruct (Z.eqb_spec (Z.of_nat n) (-1)) as [Hm|_]; [lia|].
      assert (Hf : firstOpen input n) by now split.
      assert (Hf0 : firstOpen (dropBytes n input) 0).
      { split; [|intros j Hj; lia].
        rewrite get_dropBytes, Nat.add_0_r. exact Hget. }
      rewrite (extractJSONArray_closeAt _ _ Hf).
      rewrite (extractJSONArray_closeAt _ _ Hf0). simpl dropBytes.
      destruct (closeAt initial (dropBytes n input)) as [k|];
        [|reflexivity].
      now rewrite substring_dropBytes.
  - intros input start Hf. unfold extractJSONArray.
    rewrite (Index_firstOpen _ _ Hf), Nat2Z.id.
    destruct (Z.eqb_spec (Z.of_nat start) (-1)) as [Hm|_]; [lia|].
    reflexivity.
  - cbv zeta. split.
    + split; [reflexivity|].
      intros [|[|j]] Hj; simpl; try discriminate; lia.
    + repeat split; vm_compute; reflexivity.
Qed.

Lemma extractJSONArray_ignores_quotes_witness :
  let input := Sample.quoted "a[b" ++ " [1]" in
  firstOpen input 2
  /\ extractJSONArray input
     = scanLoop input 2 (dropBytes 2 input) 2 0 false false.
Proof.
  cbv zeta.
  assert (Hf : firstOpen (Sample.quoted "a[b" ++ " [1]") 2).
  { split; [reflexivity|].
    intros [|[|j]] Hj; simpl; try discriminate; lia. }
  split; [exact Hf|].
  exact (proj1 (proj2 extractJSONArray_ignores_quotes_before_first_bracket)
           _ 2%nat Hf).
Defined.

End ExtractorClaims.

(** ** UTF-8 encoding of ASCII text *)

Lemma byteOf_lor_high (m x : Z) :
  Z.testbit m 7 = true -> 0x80 <= byteVal (byteOf (Z.lor m x)).
Proof.
  intros Hm. rewrite byteVal_byteOf.
  set (n := Z.lor m x mod 256).
  assert (Hn : 0 <= n < 256) by (apply Z.mod_pos_bound; lia).
  assert (Hb : Z.testbit n 7 = true).
  { unfold n. change 256 with (2 ^ 8).
    rewrite Z.mod_pow2_bits_low by lia.
    now rewrite Z.lor_spec, Hm. }
  apply Z.testbit_true in Hb; [|lia].
  destruct (Z_lt_le_dec n 0x80) as [Hlt|Hge]; [|exact Hge].
  change (2 ^ 7) with 128 in Hb.
  rewrite Z.div_small in Hb by lia. discriminate.
Qed.

Lemma encodeRune_ascii (r : Z) :
  UTF8.between 0 0x7F r = true ->
  UTF8.encodeRune r = String (byteOf r) EmptyString /\ byteVal (byteOf r) = r.
Proof.
  intros H. unfold UTF8.encodeRune. rewrite H. split; [reflexivity|].
  unfold UTF8.between in H. rewrite byteVal_byteOf. apply Z.mod_small. lia.
Qed.

Lemma encodeRune_not_ascii (r : Z) :
  UTF8.between 0 0x7F r = false ->
  exists c t, UTF8.encodeRune r = String c t /\ 0x80 <= byteVal c.
Proof.
  intros H. unfold UTF8.encodeRune, UTF8.enc3. rewrite H.
  repeat match goal with
         | |- context [if ?b then _ else _] => destruct b
         end;
    eexists; eexists; (split; [reflexivity|]);
    apply byteOf_lor_high; reflexivity.
Qed.

(** A text of ASCII bytes is the encoding of its own code points and of no
    other rune sequence. *)
Lemma encodeRunes_ascii_inv (rs : list Z) :
  forall s,
    (forall c, In c (list_ascii_of_string s) -> byteVal c < 0x80) ->
    UTF8.encodeRunes rs = s -> rs = codePoints s.
Proof.
  induction rs as [|r rs IH]; intros s Hs He; simpl in He.
  - now subst s.
  - destruct (UTF8.between 0 0x7F r) eqn:Hr.
    + destruct (encodeRune_ascii r Hr) as [E Hv]. rewrite E in He.
      simpl in He. subst s. simpl. rewrite Hv. f_equal.
      apply IH; [|reflexivity]. intros c Hc. apply Hs. simpl. now right.
    + destruct (encodeRune_not_ascii r Hr) as (c & t & E & Hc).
      rewrite E in He. simpl in He. subst s.
      specialize (Hs c (or_introl eq_refl)). lia.
Qed.

Lemma encodeRunes_codePoints (s : string) :
  (forall c, In c (list_ascii_of_string s) -> byteVal c < 0x80) ->
  UTF8.encodeRunes (codePoints s) = s.
Proof.
  induction s as [|c s IH]; intros Hs; simpl; [reflexivity|].
  assert (Hr : UTF8.between 0 0x7F (byteVal c) = true).
  { pose proof (byteVal_range c). specialize (Hs c (or_introl eq_refl)).
    unfold UTF8.between. apply andb_true_intro. split; apply Z.leb_le; lia. }
  destruct (encodeRune_ascii _ Hr) as [-> _]. rewrite byteOf_byteVal.
  simpl. f_equal. apply IH. intros c' Hc'. apply Hs. simpl. now right.
Qed.

Lemma encodeRunes_false (rs : list Z) :
  UTF8.encodeRunes rs = "false" <-> rs = codePoints "false".
Proof.
  split.
  - apply encodeRunes_ascii_inv. simpl.
    intros c [<-|[<-|[<-|[<-|[<-|[]]]]]]; vm_compute; reflexivity.
  - intros ->. reflexivity.
Qed.

Lemma encodeRunes_flse (rs : list Z) :
  UTF8.encodeRunes rs = "flse" <-> rs = codePoints "flse".
Proof.
  split.
  - apply encodeRunes_ascii_inv. simpl.
    intros c [<-|[<-|[<-|[<-|[]]]]]; vm_compute; reflexivity.
  - intros ->. reflexivity.
Qed.

(** The second acceptance rule, on bytes, holds of one text only. *)
Lemma shape_rule_flse (n : string) :
  ((len n =? 4)%Z && HasPrefix n "f" && HasSuffix n "lse") = true
  <-> n = "flse".
Proof.
  split.
  - intros H. apply andb_prop in H as [H Hsuf]. apply andb_prop in H as [Hl Hp].
    apply Z.eqb_eq in Hl. unfold len in Hl.
    destruct n as [|a [|b [|c [|d [|e n]]]]]; simpl in Hl; try lia.
    simpl in Hp. rewrite andb_true_r in Hp. apply Ascii.eqb_eq in Hp as ->.
    unfold HasSuffix in Hsuf. simpl in Hsuf.
    destruct (Ascii.eqb_spec b "l") as [->|]; [|discriminate].
    destruct (Ascii.eqb_spec c "s") as [->|]; [|discriminate].
    destruct (Ascii.eqb_spec d "e") as [->|]; [|discriminate].
    reflexivity.
  - intros ->. reflexivity.
Qed.

(** ** The recognizer *)

Section RecognizerFacts.
Context {U : UnicodeTables}.

Lemma lettersLoop_filter (rs acc : list Z) :
  lettersLoop rs acc
  = (acc ++ map Unicode.ToLower (filter Unicode.IsLetter rs))%list.
Proof.
  revert acc. induction rs as [|r rs IH]; intros acc; simpl.
  - now rewrite app_nil_r.
  - destruct (Unicode.IsLetter r).
    + rewrite IH, <- app_assoc. reflexivity.
    + destruct (Unicode.IsDigit r); apply IH.
Qed.

Lemma normalizedOf_skeleton (input : string) :
  normalizedOf input = UTF8.encodeRunes (letterSkeleton input).
Proof.
  unfold normalizedOf, letterSkeleton. now rewrite lettersLoop_filter.
Qed.

Lemma looksLikeFalseLiteral_normalized (input : string) :
  looksLikeFalseLiteral input = true
  <-> normalizedOf input = "false" \/ normalizedOf input = "flse".
Proof.
  unfold looksLikeFalseLiteral. cbv zeta.
  destruct (String.eqb_spec (normalizedOf input) "false") as [E|NE].
  - split; [now left|reflexivity].
  - rewrite <- shape_rule_flse.
    destruct ((len (normalizedOf input) =? 4)%Z
              && HasPrefix (normalizedOf input) "f"
              && HasSuffix (normalizedOf input) "lse").
    + split; [now right|reflexivity].
    + split; [discriminate|]. intros [H|H]; [contradiction|discriminate].
Qed.

Lemma looksLikeFalseLiteral_skeleton (input : string) :
  looksLikeFalseLiteral input = true
  <-> letterSkeleton input = codePoints "false"
      \/ letterSkeleton input = codePoints "flse".
Proof.
  rewrite looksLikeFalseLiteral_normalized, normalizedOf_skeleton.
  now rewrite encodeRunes_false, encodeRunes_flse.
Qed.

End RecognizerFacts.

Section RecognizerClaims.
Context {U : UnicodeTables}.

(** Claim C4.  For every text, [looksLikeFalseLiteral] returns true if and
    only if the input, filtered to letters only and lowercased (digits and
    all other characters discarded), either equals the word false exactly,
    or has length exactly 4, begins with f and ends with lse; the length
    may be counted in bytes, as the code does, or in letters.  In
    particular false, False and f4lse are accepted while true and the
    empty string are rejected. *)
Theorem looksLikeFalseLiteral_accepts :
  (forall input,
     let filtered := UTF8.encodeRunes (letterSkeleton input) in
     looksLikeFalseLiteral input = true <->
     filtered = "false"
     \/ (len filtered = 4 /\ HasPrefix filtered "f" = true
         /\ HasSuffix filtered "lse" = true))
  /\ (forall input,
        let letters := letterSkeleton input in
        looksLikeFalseLiteral input = true <->
        letters = codePoints "false"
        \/ (List.length letters = 4%nat
            /\ firstn 1 letters = codePoints "f"
            /\ skipn 1 letters = codePoints "lse"))
  /\ looksLikeFalseLiteral "false" = true
  /\ looksLikeFalseLiteral "False" = true
  /\ looksLikeFalseLiteral "f4lse" = true
  /\ looksLikeFalseLiteral "true" = false
  /\ looksLikeFalseLiteral EmptyString = false.
Proof.
  split; [|split].
  - intros input filtered. subst filtered.
    rewrite looksLikeFalseLiteral_normalized, normalizedOf_skeleton.
    rewrite <- shape_rule_flse.
    rewrite !andb_true_iff, Z.eqb_eq. tauto.
  - intros input letters. rewrite looksLikeFalseLiteral_skeleton.
    fold letters. split; (intros [H|H]; [now left|right]).
    + now rewrite H.
    + destruct H as (Hl & Hf & Hs).
      destruct letters as [|a [|b [|c [|d [|e l]]]]]; try discriminate.
      simpl in Hf, Hs |- *. congruence.
  - repeat split; vm_compute; reflexivity.
Qed.

(** Claim C9.  The recognizer accepts exactly two letter skeletons:
    [looksLikeFalseLiteral t] is true if and only if the letters-only,
    lowercased filtering of [t] is false or flse.  A corruption that
    replaces an interior letter by a different letter leaves five letters
    that do not spell false and is rejected (fxlse, for one), so only
    digit-substituted or letter-dropped corruptions are recovered (f4lse,
    flse). *)
Theorem looksLikeFalseLiteral_two_skeletons :
  (forall t,
     looksLikeFalseLiteral t = true <->
     letterSkeleton t = codePoints "false"
     \/ letterSkeleton t = codePoints "flse")
  /\ (forall t,
        List.length (letterSkeleton t) = 5%nat ->
        letterSkeleton t <> codePoints "false" ->
        looksLikeFalseLiteral t = false)
  /\ (letterSkeleton "fxlse" = codePoints "fxlse"
      /\ looksLikeFalseLiteral "fxlse" = false)
  /\ looksLikeFalseLiteral "faxse" = false
  /\ looksLikeFalseLiteral "falxe" = false
  /\ (letterSkeleton "f4lse" = codePoints "flse"
      /\ looksLikeFalseLiteral "f4lse" = true)
  /\ looksLikeFalseLiteral "flse" = true.
Proof.
  split; [exact looksLikeFalseLiteral_skeleton|]. split.
  - intros t Hl Hne.
    destruct (looksLikeFalseLiteral t) eqn:E; [|reflexivity].
    apply looksLikeFalseLiteral_skeleton in E as [E|E].
    + contradiction.
    + rewrite E in Hl. discriminate.
  - repeat split; vm_compute; reflexivity.
Qed.

End RecognizerClaims.

Lemma looksLikeFalseLiteral_two_skeletons_witness :
  List.length (@letterSkeleton Sample.tables "fxlse") = 5%nat
  /\ @letterSkeleton Sample.tables "fxlse" <> codePoints "false"
  /\ @looksLikeFalseLiteral Sample.tables "fxlse" = false.
Proof.
  assert (H1 : List.length (@letterSkeleton Sample.tables "fxlse") = 5%nat)
    by reflexivity.
  assert (H2 : @letterSkeleton Sample.tables "fxlse" <> codePoints "false")
    by (vm_compute; discriminate).
  split; [exact H1|]. split; [exact H2|].
  exact (proj1 (proj2 (@looksLikeFalseLiteral_two_skeletons Sample.tables))
           "fxlse" H1 H2).
Defined.

(** ** The decoder *)

Section DecoderFacts.
Context {U : UnicodeTables} {L : Library}.

Lemma recover_candidate_parses (trimmed err candidate : string)
    (fileList : list FileDetail) :
  extractJSONArray trimmed = (candidate, true) ->
  unmarshalFileDetails candidate = Ok fileList ->
  recover trimmed err
  = ([CallExtractJSONArray trimmed; CallUnmarshalFileDetails candidate],
     Ok (FileDetails fileList)).
Proof.
  intros He Hp. unfold recover, bind, calling, ret.
  rewrite He, Hp. reflexivity.
Qed.

Lemma recover_candidate_fails (trimmed err candidate err2 : string) :
  extractJSONArray trimmed = (candidate, true) ->
  unmarshalFileDetails candidate = Err err2 ->
  recover trimmed err
  = ([CallExtractJSONArray trimmed; CallUnmarshalFileDetails candidate;
      CallLooksLikeFalseLiteral trimmed],
     lastResort trimmed err).
Proof.
  intros He Hp. unfold recover, bind, calling, ret, lastResort.
  rewrite He, Hp. now destruct (looksLikeFalseLiteral trimmed).
Qed.

Lemma recover_no_candidate (trimmed err candidate : string) :
  extractJSONArray trimmed = (candidate, false) ->
  recover trimmed err
  = ([CallExtractJSONArray trimmed; CallLooksLikeFalseLiteral trimmed],
     lastResort trimmed err).
Proof.
  intros He. unfold recover, bind, calling, ret, lastResort.
  rewrite He. now destruct (looksLikeFalseLiteral trimmed).
Qed.

(** The string mode, after the outer string literal has been decoded and
    the parse of the trimmed text has failed: the decoder is the two
    calls made so far followed by the recovery chain. *)
Lemma UnmarshalFileList_enters_recovery (sr : ServerResponse)
    (payload rawString err : string) :
  FileListMode sr = Some "string" ->
  FileList sr = Some payload ->
  unmarshalString payload = Ok rawString ->
  unmarshalFileDetails (TrimSpace rawString) = Err err ->
  UnmarshalFileList sr
  = (([CallUnmarshalString payload;
       CallUnmarshalFileDetails (TrimSpace rawString)]
      ++ callsOf (recover (TrimSpace rawString) err))%list,
     resultOf (recover (TrimSpace rawString) err)).
Proof.
  intros Hm Hp Hs Hd. unfold UnmarshalFileList, bind, calling, ret.
  rewrite Hm, Hp. simpl. rewrite Hs, Hd.
  now destruct (recover (TrimSpace rawString) err).
Qed.

(** On a response with both fields present the mode decides the branch. *)
Lemma mode_cases (mode : string) :
  mode = "string" \/ (mode <> "string" /\ mode = "json")
  \/ (mode <> "string" /\ mode <> "json").
Proof.
  destruct (String.eqb_spec mode "string"); [now left|right].
  destruct (String.eqb_spec mode "json"); [left|right]; now split.
Qed.

End DecoderFacts.

Section DecoderClaims.
Context {U : UnicodeTables} {L : Library}.

(** Claim C1.  For every payload in string mode whose trimmed inner text
    fails to parse as a JSON array of FileDetail, the decoder attempts
    recovery in this strict order: first it runs the bracket-balanced
    extractor on the trimmed text and, if a candidate substring is found
    and parses as a JSON array of FileDetail, returns that sequence;
    otherwise it runs the false-literal recognizer and, if it matches,
    returns an explicitly empty FileDetail sequence; otherwise it fails
    with an error that carries the failure of the first parse, not the
    failure of the parse of the candidate. *)
Theorem string_mode_recovery_order (sr : ServerResponse)
    (payload rawString err : string) :
  FileListMode sr = Some "string" ->
  FileList sr = Some payload ->
  unmarshalString payload = Ok rawString ->
  let trimmed := TrimSpace rawString in
  unmarshalFileDetails trimmed = Err err ->
  let primary :=
    [CallUnmarshalString payload; CallUnmarshalFileDetails trimmed] in
  let failure :=
    if looksLikeFalseLiteral trimmed then Ok (FileDetails [])
    else Err ("error parsing FileList into []FileDetail: " ++ err) in
  (forall candidate fileList,
      extractJSONArray trimmed = (candidate, true) ->
      unmarshalFileDetails candidate = Ok fileList ->
      UnmarshalFileList sr
      = ((primary ++ [CallExtractJSONArray trimmed;
                      CallUnmarshalFileDetails candidate])%list,
         Ok (FileDetails fileList)))
  /\ (forall candidate err2,
        extractJSONArray trimmed = (candidate, true) ->
        unmarshalFileDetails candidate = Err err2 ->
        UnmarshalFileList sr
        = ((primary ++ [CallExtractJSONArray trimmed;
                        CallUnmarshalFileDetails candidate;
                        CallLooksLikeFalseLiteral trimmed])%list,
           failure))
  /\ (forall candidate,
        extractJSONArray trimmed = (candidate, false) ->
        UnmarshalFileList sr
        = ((primary ++ [CallExtractJSONArray trimmed;
                        CallLooksLikeFalseLiteral trimmed])%list,
           failure)).
Proof.
  intros Hm Hp Hs trimmed Hd primary failure.
  pose proof (UnmarshalFileList_enters_recovery sr payload rawString err
                Hm Hp Hs Hd) as ->.
  fold trimmed. fold primary.
  split; [|split].
  - intros candidate fileList He Hc.
    now rewrite (recover_candidate_parses _ _ _ _ He Hc).
  - intros candidate err2 He Hc.
    now rewrite (recover_candidate_fails _ _ _ _ He Hc).
  - intros candidate He.
    now rewrite (recover_no_candidate _ _ _ He).
Qed.

(** Claim C2, as amended.  An empty list is returned only when a
    JSON-array parse itself yields the empty sequence (the json-mode
    parse, the parse of the trimmed text, or the parse of the extracted
    candidate), or when, after every JSON-array parse attempt has failed,
    the trimmed text matches the false-literal recognizer. *)
Theorem empty_list_sources (sr : ServerResponse) (v : FileListValue) :
  resultOf (UnmarshalFileList sr) = Ok v ->
  isEmptyList v = true ->
  emptyListSource sr v.
Proof.
  intros Hr Hv. unfold emptyListSource.
  destruct (FileListMode sr) as [mode|] eqn:Hm;
    [|unfold UnmarshalFileList in Hr; rewrite Hm in Hr; discriminate].
  destruct (FileList sr) as [payload|] eqn:Hp;
    [|unfold UnmarshalFileList in Hr; rewrite Hm, Hp in Hr; discriminate].
  exists mode, payload. split; [reflexivity|]. split; [reflexivity|].
  destruct (mode_cases mode) as [->|[[Hns ->]|[Hns Hnj]]].
  - right. split; [reflexivity|].
    destruct (unmarshalString payload) as [rawString|e] eqn:Hs.
    2:{ unfold UnmarshalFileList, bind, calling, ret, resultOf in Hr.
        rewrite Hm, Hp in Hr. simpl in Hr. rewrite Hs in Hr.
        discriminate. }
    destruct (unmarshalFileDetails (TrimSpace rawString))
      as [fileList|err] eqn:Hd.
    + unfold UnmarshalFileList, bind, calling, ret, resultOf in Hr.
      rewrite Hm, Hp in Hr. simpl in Hr. rewrite Hs, Hd in Hr.
      simpl in Hr. injection Hr as <-.
      destruct fileList; [|discriminate].
      split; [reflexivity|]. exists rawString. split; [reflexivity|].
      now left.
    + rewrite (UnmarshalFileList_enters_recovery sr payload rawString err
                 Hm Hp Hs Hd) in Hr.
      unfold resultOf in Hr. simpl in Hr.
      destruct (extractJSONArray (TrimSpace rawString))
        as [candidate [|]] eqn:He.
      * destruct (unmarshalFileDetails candidate) as [fileList|err2] eqn:Hc.
        -- rewrite (recover_candidate_parses _ _ _ _ He Hc) in Hr.
           simpl in Hr. injection Hr as <-.
           destruct fileList; [|discriminate].
           split; [reflexivity|]. exists rawString. split; [reflexivity|].
           right; left. now exists err, candidate.
        -- rewrite (recover_candidate_fails _ _ _ _ He Hc) in Hr.
           simpl in Hr. unfold lastResort in Hr.
           destruct (looksLikeFalseLiteral (TrimSpace rawString)) eqn:Hl;
             [|discriminate].
           injection Hr as <-.
           split; [reflexivity|]. exists rawString. split; [reflexivity|].
           right; right. split; [now exists err|]. split; [|assumption].
           intros c Hc'. rewrite He in Hc'. injection Hc' as <-.
           now exists err2.
      * rewrite (recover_no_candidate _ _ _ He) in Hr.
        simpl in Hr. unfold lastResort in Hr.
        destruct (looksLikeFalseLiteral (TrimSpace rawString)) eqn:Hl;
          [|discriminate].
        injection Hr as <-.
        split; [reflexivity|]. exists rawString. split; [reflexivity|].
        right; right. split; [now exists err|]. split; [|assumption].
        intros c Hc'. rewrite He in Hc'. discriminate.
  - left. split; [reflexivity|].
    unfold UnmarshalFileList, bind, calling, ret, resultOf in Hr.
    rewrite Hm, Hp in Hr. simpl in Hr.
    destruct (unmarshalFileListEntries payload) as [entries|e];
      [|discriminate].
    simpl in Hr. injection Hr as <-.
    destruct entries; [|discriminate]. now split.
  - unfold UnmarshalFileList, bind, calling, ret, resultOf in Hr.
    rewrite Hm, Hp in Hr.
    apply String.eqb_neq in Hns, Hnj. rewrite Hns, Hnj in Hr.
    discriminate.
Qed.

(** Claim C5.  For every payload in json mode that fails to parse
    directly as a JSON array of FileListEntry, the decoder fails
    immediately with a parse error; the extractor and the recognizer are
    never invoked in this mode, on any input: the one call made is the
    parse of the raw payload. *)
Theorem json_mode_no_recovery (sr : ServerResponse) (payload : string) :
  FileListMode sr = Some "json" ->
  FileList sr = Some payload ->
  callsOf (UnmarshalFileList sr) = [CallUnmarshalFileListEntries payload]
  /\ (forall text,
        ~ In (CallExtractJSONArray text) (callsOf (UnmarshalFileList sr))
        /\ ~ In (CallLooksLikeFalseLiteral text)
               (callsOf (UnmarshalFileList sr)))
  /\ (forall err,
        unmarshalFileListEntries payload = Err err ->
        resultOf (UnmarshalFileList sr)
        = Err ("error parsing FileList into []FileListEntry: " ++ err)).
Proof.
  intros Hm Hp.
  assert (Hc : callsOf (UnmarshalFileList sr)
               = [CallUnmarshalFileListEntries payload]).
  { unfold UnmarshalFileList, bind, calling, ret, callsOf.
    rewrite Hm, Hp. simpl.
    now destruct (unmarshalFileListEntries payload). }
  split; [exact Hc|]. split.
  - intros text. rewrite Hc.
    split; intros [H|[]]; discriminate.
  - intros err He.
    unfold UnmarshalFileList, bind, calling, ret, resultOf.
    rewrite Hm, Hp. simpl. now rewrite He.
Qed.

(** Claim C6.  For every payload in string mode whose raw bytes fail to
    decode as an outer JSON string literal, the decoder fails immediately
    with an encoding error, and no recovery step, neither extractor nor
    recognizer, is attempted for that failure. *)
Theorem string_mode_outer_failure (sr : ServerResponse)
    (payload err : string) :
  FileListMode sr = Some "string" ->
  FileList sr = Some payload ->
  unmarshalString payload = Err err ->
  UnmarshalFileList sr
  = ([CallUnmarshalString payload],
     Err ("error parsing FileList into string: " ++ err))
  /\ forall text,
       ~ In (CallExtractJSONArray text) (callsOf (UnmarshalFileList sr))
       /\ ~ In (CallLooksLikeFalseLiteral text)
              (callsOf (UnmarshalFileList sr)).
Proof.
  intros Hm Hp Hs.
  assert (E : UnmarshalFileList sr
              = ([CallUnmarshalString payload],
                 Err ("error parsing FileList into string: " ++ err))).
  { unfold UnmarshalFileList, bind, calling, ret.
    rewrite Hm, Hp. simpl. now rewrite Hs. }
  split; [exact E|]. intros text. rewrite E.
  split; intros [H|[]]; discriminate.
Qed.

(** Claim C7.  For every input where the mode tag or the raw payload is
    absent (nil), the decoder returns a missing-input error before
    executing any mode-specific logic, regardless of the content of the
    other field: no call is made. *)
Theorem missing_input_error (sr : ServerResponse) :
  FileListMode sr = None \/ FileList sr = None ->
  UnmarshalFileList sr
  = ([], Err "FileListMode or FileList are empty, cannot proceed with unmarshaling").
Proof.
  unfold UnmarshalFileList.
  intros [H|H]; rewrite H; [reflexivity|].
  now destruct (FileListMode sr).
Qed.

(** Claim C8.  For every present mode tag other than string and json,
    with a present payload, the decoder fails with an unrecognized-mode
    error whose message identifies the offending mode value. *)
Theorem unknown_mode_error (sr : ServerResponse) (mode payload : string) :
  FileListMode sr = Some mode ->
  FileList sr = Some payload ->
  mode <> "string" -> mode <> "json" ->
  UnmarshalFileList sr = ([], Err ("unknown FileListMode: " ++ mode)).
Proof.
  intros Hm Hp Hs Hj. unfold UnmarshalFileList. rewrite Hm, Hp.
  apply String.eqb_neq in Hs, Hj. now rewrite Hs, Hj.
Qed.

End DecoderClaims.

(** ** The decoder on concrete payloads *)

Section DecoderRuns.
Import Sample.

#[local] Existing Instance tables.
#[local] Existing Instance library.

(** C1 on five payloads: a candidate that parses; a candidate that does
    not, with and without a false-like text; no candidate, with and
    without a false-like text. *)
Lemma string_mode_recovery_order_witness :
  (unmarshalString (quoted "[{}] some trailing text")
     = Ok "[{}] some trailing text"
   /\ (exists err, unmarshalFileDetails "[{}] some trailing text" = Err err)
   /\ extractJSONArray "[{}] some trailing text" = ("[{}]", true)
   /\ unmarshalFileDetails "[{}]" = Ok [tt]
   /\ decode (response "string" (quoted "[{}] some trailing text"))
      = ([CallUnmarshalString (quoted "[{}] some trailing text");
          CallUnmarshalFileDetails "[{}] some trailing text";
          CallExtractJSONArray "[{}] some trailing text";
          CallUnmarshalFileDetails "[{}]"],
         Ok (details [tt])))
  /\ decode (response "string" (quoted "[0] false"))
     = ([CallUnmarshalString (quoted "[0] false");
         CallUnmarshalFileDetails "[0] false";
         CallExtractJSONArray "[0] false";
         CallUnmarshalFileDetails "[0]";
         CallLooksLikeFalseLiteral "[0] false"],
        Ok (details []))
  /\ decode (response "string" (quoted "oops [x]"))
     = ([CallUnmarshalString (quoted "oops [x]");
         CallUnmarshalFileDetails "oops [x]";
         CallExtractJSONArray "oops [x]";
         CallUnmarshalFileDetails "[x]";
         CallLooksLikeFalseLiteral "oops [x]"],
        Err "error parsing FileList into []FileDetail: sample: not a JSON array of records: oops [x]")
  /\ decode (response "string" (quoted "false"))
     = ([CallUnmarshalString (quoted "false");
         CallUnmarshalFileDetails "false";
         CallExtractJSONArray "false";
         CallLooksLikeFalseLiteral "false"],
        Ok (details []))
  /\ decode (response "string" (quoted "oops"))
     = ([CallUnmarshalString (quoted "oops");
         CallUnmarshalFileDetails "oops";
         CallExtractJSONArray "oops";
         CallLooksLikeFalseLiteral "oops"],
        Err "error parsing FileList into []FileDetail: sample: not a JSON array of records: oops").
Proof.
  pose (thm := fun text =>
    @string_mode_recovery_order tables library
      (response "string" (quoted text)) (quoted text) text
      ("sample: not a JSON array of records: " ++ text) eq_refl eq_refl).
  split; [|split; [|split; [|split]]].
  - split; [reflexivity|]. split; [eexists; reflexivity|].
    split; [reflexivity|]. split; [reflexivity|].
    exact (proj1 (thm "[{}] some trailing text" eq_refl eq_refl)
             "[{}]" [tt] eq_refl eq_refl).
  - exact (proj1 (proj2 (thm "[0] false" eq_refl eq_refl))
             "[0]" "sample: not a JSON array of records: [0]"
             eq_refl eq_refl).
  - exact (proj1 (proj2 (thm "oops [x]" eq_refl eq_refl))
             "[x]" "sample: not a JSON array of records: [x]"
             eq_refl eq_refl).
  - exact (proj2 (proj2 (thm "false" eq_refl eq_refl)) EmptyString eq_refl).
  - exact (proj2 (proj2 (thm "oops" eq_refl eq_refl)) EmptyString eq_refl).
Defined.

(** The invariant as the specification states it fails on the payload
    whose text is the empty JSON array: the first parse succeeds with the
    empty slice, which the decoder returns; the recognizer is not run, and
    would reject the text. *)
Lemma emptyOnlyWhenFalseLike_counterexample :
  decode (response "string" (quoted "[]"))
  = ([CallUnmarshalString (quoted "[]"); CallUnmarshalFileDetails "[]"],
     Ok (details []))
  /\ recognize "[]" = false
  /\ ~ @emptyOnlyWhenFalseLike tables library.
Proof.
  split; [reflexivity|]. split; [reflexivity|].
  intros H.
  destruct (H (response "string" (quoted "[]")) (details [])
              eq_refl eq_refl)
    as (payload & rawString & _ & Hp & Hs & (err & He) & _).
  injection Hp as <-.
  change (Ok "[]" = Ok rawString) in Hs. injection Hs as <-.
  discriminate He.
Qed.

Lemma empty_list_sources_witness :
  resultOf (decode (response "string" (quoted "false")))
  = Ok (details [])
  /\ isEmptyList (details []) = true
  /\ @emptyListSource tables library
       (response "string" (quoted "false")) (details []).
Proof.
  split; [reflexivity|]. split; [reflexivity|].
  exact (@empty_list_sources tables library
           (response "string" (quoted "false")) (details [])
           eq_refl eq_refl).
Defined.

Lemma json_mode_no_recovery_witness :
  unmarshalFileListEntries "[{}] x"
  = Err "sample: not a JSON array of records: [{}] x"
  /\ decode (response "json" "[{}] x")
     = ([CallUnmarshalFileListEntries "[{}] x"],
        Err "error parsing FileList into []FileListEntry: sample: not a JSON array of records: [{}] x").
Proof.
  split; [reflexivity|].
  pose proof (@json_mode_no_recovery tables library
                (response "json" "[{}] x") "[{}] x" eq_refl eq_refl)
    as (Hc & _ & Hr).
  specialize (Hr _ eq_refl).
  unfold decode.
  destruct (@UnmarshalFileList tables library (response "json" "[{}] x"))
    as [calls result].
  simpl in Hc, Hr. now rewrite Hc, Hr.
Defined.

Lemma string_mode_outer_failure_witness :
  unmarshalString "[]" = Err "sample: not a plain JSON string literal"
  /\ decode (response "string" "[]")
     = ([CallUnmarshalString "[]"],
        Err "error parsing FileList into string: sample: not a plain JSON string literal").
Proof.
  split; [reflexivity|].
  exact (proj1 (@string_mode_outer_failure tables library
                  (response "string" "[]") "[]" _
                  eq_refl eq_refl eq_refl)).
Defined.

Lemma missing_input_error_witness :
  decode (mkServerResponse None (Some (quoted "[]")))
  = ([], Err "FileListMode or FileList are empty, cannot proceed with unmarshaling")
  /\ decode (mkServerResponse (Some "string") None)
     = ([], Err "FileListMode or FileList are empty, cannot proceed with unmarshaling").
Proof.
  split.
  - exact (@missing_input_error tables library
             (mkServerResponse None (Some (quoted "[]")))
             (or_introl eq_refl)).
  - exact (@missing_input_error tables library
             (mkServerResponse (Some "string") None)
             (or_intror eq_refl)).
Defined.

Lemma unknown_mode_error_witness :
  "xml" <> "string" /\ "xml" <> "json"
  /\ decode (response "xml" (quoted "[]"))
     = ([], Err "unknown FileListMode: xml").
Proof.
  assert (H1 : "xml" <> "string") by discriminate.
  assert (H2 : "xml" <> "json") by discriminate.
  split; [exact H1|]. split; [exact H2|].
  exact (@unknown_mode_error tables library
           (response "xml" (quoted "[]")) "xml" (quoted "[]")
           eq_refl eq_refl H1 H2).
Defined.

End DecoderRuns.

(** * Further properties *)

(** ** Texts *)

Lemma append_assoc (a b c : string) : (a ++ b) ++ c = a ++ (b ++ c).
Proof. induction a as [|x a IH]; simpl; [reflexivity|now rewrite IH]. Qed.

Lemma append_nil_r (a : string) : a ++ EmptyString = a.
Proof. induction a as [|x a IH]; simpl; [reflexivity|now rewrite IH]. Qed.

Lemma length_append (a b : string) :
  String.length (a ++ b) = (String.length a + String.length b)%nat.
Proof. induction a as [|x a IH]; simpl; [reflexivity|now rewrite IH]. Qed.

Lemma dropBytes_app (a b : string) : dropBytes (String.length a) (a ++ b) = b.
Proof. induction a as [|x a IH]; simpl; [reflexivity|exact IH]. Qed.

Lemma substring_app (a b : string) :
  substring 0 (String.length a) (a ++ b) = a.
Proof.
  induction a as [|x a IH]; simpl; [apply substring_0_0|now rewrite IH].
Qed.

Lemma substring_full (t : string) : substring 0 (String.length t) t = t.
Proof.
  induction t as [|x t IH]; simpl; [reflexivity|now rewrite IH].
Qed.

Lemma substring_app_more (a b : string) (k : nat) :
  substring 0 (String.length a + k) (a ++ b) = a ++ substring 0 k b.
Proof. induction a as [|x a IH]; simpl; [reflexivity|now rewrite IH]. Qed.

Lemma substring_dropBytes_split (k : nat) (t : string) :
  t = substring 0 k t ++ dropBytes k t.
Proof.
  revert t. induction k as [|k IH]; intros [|x t]; simpl; try reflexivity.
  now rewrite <- IH.
Qed.

Lemma substring_length (k : nat) (t : string) :
  (k <= String.length t)%nat -> String.length (substring 0 k t) = k.
Proof.
  revert t. induction k as [|k IH]; intros [|x t] H; simpl in *;
    try reflexivity; try lia.
  rewrite IH; lia.
Qed.

Lemma substring_whole (k : nat) (t : string) :
  (k <= String.length t)%nat -> substring 0 k t = t -> k = String.length t.
Proof.
  intros Hk He. rewrite <- He. symmetry. now apply substring_length.
Qed.

Lemma substring_last (k : nat) (t : string) (c : ascii) :
  String.get k t = Some c ->
  substring 0 (S k) t = substring 0 k t ++ String c EmptyString.
Proof.
  revert t. induction k as [|k IH]; intros [|x t] H; simpl in H;
    try discriminate.
  - injection H as ->. simpl. now rewrite !substring_0_0.
  - change (substring 0 (S (S k)) (String x t))
      with (String x (substring 0 (S k) t)).
    rewrite (IH _ H). reflexivity.
Qed.

Lemma get_app_left (a b : string) (j : nat) :
  (j < String.length a)%nat -> String.get j (a ++ b) = String.get j a.
Proof.
  revert j. induction a as [|x a IH]; intros j H; simpl in *; [lia|].
  destruct j as [|j]; [reflexivity|apply IH; lia].
Qed.

Lemma get_app_right (a b : string) (j : nat) :
  String.get (String.length a + j) (a ++ b) = String.get j b.
Proof. induction a as [|x a IH]; simpl; [reflexivity|exact IH]. Qed.

Lemma get_beyond (a : string) (j : nat) :
  (String.length a <= j)%nat -> String.get j a = None.
Proof.
  revert j. induction a as [|x a IH]; intros j H; simpl in *.
  - now destruct j.
  - destruct j as [|j]; [lia|apply IH; lia].
Qed.

(** ** More on the extractor *)

Section ExtractorShape.
Import ExtractorSpec.

Local Notation "'opened'" := (mkScan 1 false false).

Lemma firstOpen_app (pre rest : string) :
  noOpen pre -> firstOpen (pre ++ String lbracket rest) (String.length pre).
Proof.
  intros Hno. split.
  - rewrite <- (Nat.add_0_r (String.length pre)). now rewrite get_app_right.
  - intros j Hj. rewrite get_app_left by assumption. apply Hno.
Qed.

(** A text is free of opening brackets or splits at its first one. *)
Lemma split_at_first_bracket (input : string) :
  noOpen input
  \/ exists pre rest, input = pre ++ String lbracket rest /\ noOpen pre.
Proof.
  induction input as [|x t IH].
  - left. intros [|j]; discriminate.
  - destruct (Ascii.eqb_spec x lbracket) as [->|Hx].
    + right. exists EmptyString, t. split; [reflexivity|].
      intros [|j]; discriminate.
    + destruct IH as [Hno|(pre & rest & -> & Hno)].
      * left. intros [|j]; simpl; [congruence|apply Hno].
      * right. exists (String x pre), rest. split; [reflexivity|].
        intros [|j]; simpl; [congruence|apply Hno].
Qed.

(** The extractor on a text split at its first opening bracket. *)
Lemma extractJSONArray_split (pre rest : string) :
  noOpen pre ->
  extractJSONArray (pre ++ String lbracket rest)
  = match closeAt opened rest with
    | Some k => (String lbracket (substring 0 k rest), true)
    | None => (EmptyString, false)
    end.
Proof.
  intros Hno.
  rewrite (extractJSONArray_closeAt _ _ (firstOpen_app pre rest Hno)).
  rewrite dropBytes_app.
  change (closeAt initial (String lbracket rest))
    with (option_map S (closeAt opened rest)).
  destruct (closeAt opened rest) as [k|]; simpl option_map; cbv iota;
    [|reflexivity].
  rewrite substring_dropBytes, dropBytes_app. reflexivity.
Qed.

Lemma extractJSONArray_noOpen (input : string) :
  noOpen input -> extractJSONArray input = (EmptyString, false).
Proof.
  intros Hno. unfold extractJSONArray.
  destruct (Index_cases input lbracket) as [[-> _]|(n & _ & Hget & _)].
  - reflexivity.
  - now apply Hno in Hget.
Qed.

Lemma closeAt_bound (st : ScanState) (t : string) (k : nat) :
  closeAt st t = Some k -> (1 <= k <= String.length t)%nat.
Proof. intros H. apply closeAt_Some in H. tauto. Qed.

(** The scan reads nothing beyond the byte at which it stops. *)
Lemma closeAt_app (a b : string) :
  forall (st : ScanState) (k : nat),
    closeAt st a = Some k -> closeAt st (a ++ b) = Some k.
Proof.
  induction a as [|x a IH]; intros st k; simpl; [discriminate|].
  destruct (depthOf (step st x) =? 0)%Z; [trivial|].
  destruct (closeAt (step st x) a) as [k'|] eqn:E; [|discriminate].
  intros [= <-]. now rewrite (IH _ _ E).
Qed.

Lemma closeAt_prefix (t : string) :
  forall (st : ScanState) (k : nat),
    closeAt st t = Some k -> closeAt st (substring 0 k t) = Some k.
Proof.
  induction t as [|x t IH]; intros st k; simpl closeAt; [discriminate|].
  destruct (depthOf (step st x) =? 0)%Z eqn:Hz.
  - intros [= <-]. simpl. rewrite Hz. reflexivity.
  - destruct (closeAt (step st x) t) as [k'|] eqn:E; [|discriminate].
    intros [= <-]. simpl. rewrite Hz. now rewrite (IH _ _ E).
Qed.

(** A candidate is found exactly when the scan from the first opening
    bracket closes, and it is then the bracket followed by the bytes
    scanned. *)
Lemma extractJSONArray_found (input candidate : string) :
  extractJSONArray input = (candidate, true) <->
  exists pre rest k,
    input = pre ++ String lbracket rest /\ noOpen pre
    /\ closeAt opened rest = Some k
    /\ candidate = String lbracket (substring 0 k rest).
Proof.
  split.
  - intros H.
    destruct (split_at_first_bracket input) as [Hno|(pre & rest & -> & Hno)].
    + rewrite (extractJSONArray_noOpen _ Hno) in H. discriminate.
    + rewrite (extractJSONArray_split _ _ Hno) in H.
      destruct (closeAt opened rest) as [k|] eqn:E; [|discriminate].
      injection H as <-. now exists pre, rest, k.
  - intros (pre & rest & k & -> & Hno & E & ->).
    now rewrite (extractJSONArray_split _ _ Hno), E.
Qed.

(** A text is returned whole exactly when it is an opening bracket
    followed by bytes the scan closes on at the last one. *)
Lemma extractJSONArray_whole (c : string) :
  extractJSONArray c = (c, true) <->
  exists body, c = String lbracket body
               /\ closeAt opened body = Some (String.length body).
Proof.
  split.
  - intros H. apply extractJSONArray_found in H.
    destruct H as (pre & rest & k & E & Hno & Hc & E').
    destruct pre as [|x pre].
    + simpl in E. rewrite E in E'. injection E' as E'.
      exists rest. split; [exact E|].
      rewrite Hc. f_equal. apply substring_whole; [|now symmetry].
      apply closeAt_bound in Hc. lia.
    + exfalso. rewrite E in E'. simpl in E'. injection E' as -> _.
      now apply (Hno 0%nat).
  - intros (body & -> & Hc).
    apply extractJSONArray_found. exists EmptyString, body, (String.length body).
    split; [reflexivity|]. split; [intros [|j]; discriminate|].
    split; [exact Hc|]. now rewrite substring_full.
Qed.

End ExtractorShape.

Section ExtractorLaws.
Import ExtractorSpec.

(** X1.  A result with found = false carries the empty string.  A result
    with found = true is a piece of the input that begins at the first
    opening bracket of the input, starts with an opening bracket and ends
    with a closing bracket. *)
Theorem extractJSONArray_result_shape (input candidate : string)
    (found : bool) :
  extractJSONArray input = (candidate, found) ->
  (found = false -> candidate = EmptyString)
  /\ (found = true ->
      exists pre body post,
        input = pre ++ candidate ++ post
        /\ noOpen pre
        /\ candidate = String lbracket (body ++ String rbracket EmptyString)).
Proof.
  intros H. split; intros ->.
  - destruct (split_at_first_bracket input) as [Hno|(pre & rest & -> & Hno)].
    + rewrite (extractJSONArray_noOpen _ Hno) in H. congruence.
    + rewrite (extractJSONArray_split _ _ Hno) in H.
      destruct (closeAt (mkScan 1 false false) rest); congruence.
  - apply extractJSONArray_found in H.
    destruct H as (pre & rest & k & -> & Hno & Hc & ->).
    pose proof (closeAt_bound _ _ _ Hc) as Hk.
    apply closeAt_rbracket in Hc; [|simpl; lia].
    destruct k as [|k]; [lia|]. simpl in Hc. rewrite Nat.sub_0_r in Hc.
    exists pre, (substring 0 k rest), (dropBytes (S k) rest).
    split; [|split; [exact Hno|]].
    + simpl. do 2 f_equal. apply substring_dropBytes_split.
    + now rewrite (substring_last _ _ _ Hc).
Qed.

Lemma extractJSONArray_result_shape_witness :
  extractJSONArray "ab [1,[2],3] tail ]" = ("[1,[2],3]", true)
  /\ exists pre body post,
       "ab [1,[2],3] tail ]" = pre ++ "[1,[2],3]" ++ post
       /\ noOpen pre
       /\ "[1,[2],3]" = String lbracket (body ++ String rbracket EmptyString).
Proof.
  split; [reflexivity|].
  exact (proj2 (extractJSONArray_result_shape
                  "ab [1,[2],3] tail ]" "[1,[2],3]" true eq_refl) eq_refl).
Defined.

(** X2.  Extraction is idempotent: a candidate that was found is returned
    unchanged when the extractor is run on it again. *)
Theorem extractJSONArray_idempotent (input candidate : string) :
  extractJSONArray input = (candidate, true) ->
  extractJSONArray candidate = (candidate, true).
Proof.
  intros H. apply extractJSONArray_found in H.
  destruct H as (pre & rest & k & _ & _ & Hc & ->).
  apply extractJSONArray_whole. exists (substring 0 k rest).
  split; [reflexivity|].
  rewrite substring_length by (apply closeAt_bound in Hc; lia).
  now apply closeAt_prefix.
Qed.

Lemma extractJSONArray_idempotent_witness :
  extractJSONArray "ab [1,[2],3] tail ]" = ("[1,[2],3]", true)
  /\ extractJSONArray "[1,[2],3]" = ("[1,[2],3]", true).
Proof.
  split; [reflexivity|].
  exact (extractJSONArray_idempotent "ab [1,[2],3] tail ]" "[1,[2],3]"
           eq_refl).
Defined.

(** X3.  The result does not depend on what surrounds the array: a text
    that the extractor returns whole is also what it returns when that text
    is followed by anything at all and preceded by anything free of opening
    brackets. *)
Theorem extractJSONArray_surroundings (pre c post : string) :
  extractJSONArray c = (c, true) ->
  noOpen pre ->
  extractJSONArray (pre ++ c ++ post) = (c, true).
Proof.
  intros H Hno. apply extractJSONArray_whole in H.
  destruct H as (body & -> & Hc). simpl.
  rewrite (extractJSONArray_split _ _ Hno).
  rewrite (closeAt_app _ post _ _ Hc). now rewrite substring_app.
Qed.

Lemma extractJSONArray_surroundings_witness :
  extractJSONArray "[1,[2],3]" = ("[1,[2],3]", true)
  /\ noOpen "ab "
  /\ extractJSONArray ("ab " ++ "[1,[2],3]" ++ " tail ] [4]")
     = ("[1,[2],3]", true).
Proof.
  assert (Hno : noOpen "ab ").
  { intros [|[|[|[|j]]]]; simpl; discriminate. }
  split; [reflexivity|]. split; [exact Hno|].
  exact (extractJSONArray_surroundings "ab " "[1,[2],3]" " tail ] [4]"
           eq_refl Hno).
Defined.

End ExtractorLaws.

(** ** The extractor and bracket-balanced texts *)

Section ExtractorGrammar.
Import ExtractorSpec Balance.

Local Notation "'opened'" := (mkScan 1 false false).

Lemma option_map_id (f : nat -> nat) (x : option nat) :
  (forall k, f k = k) -> option_map f x = x.
Proof. intros H. destruct x; simpl; [now rewrite H|reflexivity]. Qed.

Lemma option_map_ext (f g : nat -> nat) (x : option nat) :
  (forall k, f k = g k) -> option_map f x = option_map g x.
Proof. intros H. destruct x; simpl; [now rewrite H|reflexivity]. Qed.

Lemma option_map_map (f g : nat -> nat) (x : option nat) :
  option_map f (option_map g x) = option_map (fun k => f (g k)) x.
Proof. now destruct x. Qed.

Lemma closeAt_cons (st : ScanState) (x : ascii) (t : string) :
  depthOf (step st x) <> 0 ->
  closeAt st (String x t) = option_map S (closeAt (step st x) t).
Proof.
  intros H. simpl. now destruct (Z.eqb_spec (depthOf (step st x)) 0).
Qed.

(** Inside a string literal the scan runs to the closing quote and leaves
    the depth as it was. *)
Lemma literal_closeAt (body : string) :
  forall (esc : bool) (d : Z) (rest : string),
    d <> 0 ->
    literalBody esc body = true ->
    closeAt (mkScan d true esc) (body ++ String quote rest)
    = option_map (fun k => (String.length body + 1 + k)%nat)
        (closeAt (mkScan d false false) rest).
Proof.
  induction body as [|c body IH]; intros esc d rest Hd Hb; simpl in Hb.
  - destruct esc; [discriminate|]. simpl append.
    rewrite closeAt_cons by exact Hd. apply option_map_ext.
    intros; simpl; lia.
  - simpl append. destruct esc.
    + rewrite closeAt_cons by exact Hd.
      change (step (mkScan d true true) c) with (mkScan d true false).
      rewrite (IH _ _ _ Hd Hb), option_map_map.
      apply option_map_ext. intros; simpl; lia.
    + destruct (Ascii.eqb c backslash) eqn:Eb.
      * rewrite closeAt_cons by (unfold step; simpl; now rewrite Eb).
        replace (step (mkScan d true false) c) with (mkScan d true true)
          by (unfold step; simpl; now rewrite Eb).
        rewrite (IH _ _ _ Hd Hb), option_map_map.
        apply option_map_ext. intros; simpl; lia.
      * destruct (Ascii.eqb c quote) eqn:Eq; [discriminate|].
        rewrite closeAt_cons by (unfold step; simpl; now rewrite Eb, Eq).
        replace (step (mkScan d true false) c) with (mkScan d true false)
          by (unfold step; simpl; now rewrite Eb, Eq).
        rewrite (IH _ _ _ Hd Hb), option_map_map.
        apply option_map_ext. intros; simpl; lia.
Qed.

(** Outside string literals the scan leaves balanced contents at the depth
    at which it entered them. *)
Lemma balanced_closeAt (n : string) :
  Balanced n ->
  forall (d : Z) (rest : string),
    1 <= d ->
    closeAt (mkScan d false false) (n ++ rest)
    = option_map (fun k => (String.length n + k)%nat)
        (closeAt (mkScan d false false) rest).
Proof.
  induction 1 as [|c Hc|body Hb|n Hn IH|a b Ha IHa Hb IHb]; intros d rest Hd.
  - simpl. symmetry. now apply option_map_id.
  - unfold inertByte in Hc.
    apply andb_prop in Hc as [Hc Hr]. apply andb_prop in Hc as [Hq Hl].
    apply negb_true_iff in Hq, Hl, Hr.
    assert (Hs : step (mkScan d false false) c = mkScan d false false)
      by (unfold step; simpl; now rewrite Hq, Hl, Hr).
    simpl append. rewrite closeAt_cons by (rewrite Hs; simpl; lia).
    rewrite Hs. apply option_map_ext. intros; reflexivity.
  - simpl append. rewrite append_assoc. simpl append.
    rewrite closeAt_cons by (simpl; lia).
    change (step (mkScan d false false) quote) with (mkScan d true false).
    rewrite literal_closeAt by (try assumption; lia).
    rewrite option_map_map. apply option_map_ext.
    intros k. simpl. rewrite length_append. simpl. lia.
  - simpl append. rewrite append_assoc. simpl append.
    rewrite closeAt_cons by (simpl; lia).
    change (step (mkScan d false false) lbracket)
      with (mkScan (d + 1) false false).
    rewrite IH by lia.
    rewrite closeAt_cons by (simpl; lia).
    change (step (mkScan (d + 1) false false) rbracket)
      with (mkScan (d + 1 - 1) false false).
    replace (d + 1 - 1) with d by lia.
    rewrite !option_map_map. apply option_map_ext.
    intros k. simpl. rewrite length_append. simpl. lia.
  - rewrite append_assoc, IHa, IHb by assumption.
    rewrite option_map_map. apply option_map_ext.
    intros k. rewrite length_append. lia.
Qed.

(** X4.  Every array of the grammar is extracted exactly: an opening
    bracket, contents made of inert bytes, string literals (which may hold
    brackets and escaped quotes) and nested arrays, and a closing bracket
    are returned whole, whatever follows them and whatever bracket-free text
    precedes them. *)
Theorem extractJSONArray_balanced (pre n post : string) :
  Balanced n ->
  noOpen pre ->
  extractJSONArray (pre ++ array n ++ post) = (array n, true).
Proof.
  intros Hn Hno. unfold array. simpl append. rewrite append_assoc.
  simpl append. rewrite (extractJSONArray_split _ _ Hno).
  rewrite (balanced_closeAt _ Hn) by lia.
  change (closeAt opened (String rbracket post)) with (Some 1%nat).
  simpl option_map. cbv iota.
  rewrite substring_app_more. simpl. now rewrite substring_0_0.
Qed.

End ExtractorGrammar.

Section ExtractorGrammarRuns.
Import ExtractorSpec Balance.

Lemma extractJSONArray_balanced_witness :
  let n := "1," ++ String quote ("a]b" ++ String quote EmptyString)
           ++ "," ++ array "2" in
  Balanced n /\ noOpen "ab "
  /\ extractJSONArray ("ab " ++ array n ++ " tail ]") = (array n, true).
Proof.
  cbv zeta.
  assert (Hn : Balanced ("1," ++ String quote ("a]b" ++ String quote EmptyString)
                         ++ "," ++ array "2")).
  { apply (BalancedApp "1"); [now apply BalancedByte|].
    apply (BalancedApp ","); [now apply BalancedByte|].
    apply (BalancedApp (String quote ("a]b" ++ String quote EmptyString)));
      [now apply BalancedLiteral|].
    apply (BalancedApp ","); [now apply BalancedByte|].
    apply BalancedArray. now apply BalancedByte. }
  assert (Hno : noOpen "ab ").
  { intros [|[|[|[|j]]]]; simpl; discriminate. }
  split; [exact Hn|]. split; [exact Hno|].
  exact (extractJSONArray_balanced "ab " _ " tail ]" Hn Hno).
Defined.

End ExtractorGrammarRuns.

Section ExtractorSound.
Import ExtractorSpec Balance.

Local Notation "'opened'" := (mkScan 1 false false).

(** The state one level deeper. *)
Local Notation "'deeper' st" :=
  (mkScan (depthOf st + 1) (insideString st) (escapePending st))
  (at level 10, st at level 9).

(** Outside a string literal no escape is pending. *)
Local Notation "'settled' st" :=
  (insideString st = false -> escapePending st = false)
  (at level 10, st at level 9).

Lemma step_settled (st : ScanState) (x : ascii) :
  settled st -> settled (step st x).
Proof.
  destruct st as [d i e]; unfold step; simpl.
  destruct i, e, (Ascii.eqb x backslash), (Ascii.eqb x quote),
    (Ascii.eqb x lbracket), (Ascii.eqb x rbracket); simpl; auto.
Qed.

Lemma step_deeper (st : ScanState) (x : ascii) :
  step (deeper st) x = deeper (step st x).
Proof.
  destruct st as [d i e]; unfold step; simpl.
  destruct i, e, (Ascii.eqb x backslash), (Ascii.eqb x quote),
    (Ascii.eqb x lbracket), (Ascii.eqb x rbracket); simpl;
    try reflexivity; f_equal; lia.
Qed.

(** A scan that closes after [k] bytes is, one level deeper, back at depth
    one, outside any literal, after those [k] bytes. *)
Lemma closeAt_deeper (t : string) :
  forall (st : ScanState) (k : nat),
    1 <= depthOf st -> settled st ->
    closeAt st t = Some k ->
    closeAt (deeper st) t
    = option_map (fun j => (k + j)%nat) (closeAt opened (dropBytes k t)).
Proof.
  induction t as [|x t IH]; intros st k Hd Hs; simpl closeAt; [discriminate|].
  rewrite step_deeper. cbn [depthOf].
  destruct (Z.eqb_spec (depthOf (step st x)) 0) as [Hz|Hnz].
  - intros [= <-]. simpl dropBytes.
    destruct (step_to_zero st x Hd Hz) as [-> Hi].
    assert (E : deeper (step st rbracket) = opened).
    { destruct st as [d i e]; simpl in *. subst i.
      rewrite (Hs eq_refl) in *. unfold step in *; simpl in *. f_equal; lia. }
    rewrite E, Hz. simpl. apply option_map_ext. intros; lia.
  - destruct (closeAt (step st x) t) as [k'|] eqn:E; [|discriminate].
    intros [= <-].
    pose proof (step_depth_positive st x Hd Hnz) as Hd'.
    destruct (Z.eqb_spec (depthOf (step st x) + 1) 0) as [Hc|_]; [lia|].
    rewrite (IH _ _ Hd' (step_settled _ _ Hs) E), option_map_map.
    simpl dropBytes. apply option_map_ext. intros; lia.
Qed.

Lemma closeAt_deeper_None (t : string) :
  forall (st : ScanState),
    1 <= depthOf st ->
    closeAt st t = None -> closeAt (deeper st) t = None.
Proof.
  induction t as [|x t IH]; intros st Hd; simpl closeAt; [reflexivity|].
  rewrite step_deeper. cbn [depthOf].
  destruct (Z.eqb_spec (depthOf (step st x)) 0) as [Hz|Hnz]; [discriminate|].
  pose proof (step_depth_positive st x Hd Hnz) as Hd'.
  destruct (Z.eqb_spec (depthOf (step st x) + 1) 0) as [Hc|_]; [lia|].
  destruct (closeAt (step st x) t) as [k'|] eqn:E; [discriminate|].
  intros _. now rewrite (IH _ Hd' E).
Qed.

(** A scan that starts inside a string literal and closes has met the end
    of the literal first. *)
Lemma literal_split (t : string) :
  forall (esc : bool) (d : Z) (k : nat),
    d <> 0 ->
    closeAt (mkScan d true esc) t = Some k ->
    exists body t' k',
      t = body ++ String quote t'
      /\ literalBody esc body = true
      /\ closeAt (mkScan d false false) t' = Some k'
      /\ k = (String.length body + 1 + k')%nat.
Proof.
  induction t as [|x t IH]; intros esc d k Hd; simpl closeAt; [discriminate|].
  assert (Hcase :
    (step (mkScan d true esc) x = mkScan d false false
     /\ esc = false /\ x = quote)
    \/ (exists esc', step (mkScan d true esc) x = mkScan d true esc'
        /\ forall body, literalBody esc' body = true ->
                        literalBody esc (String x body) = true)).
  { unfold step; simpl. destruct esc.
    - right. exists false. split; [reflexivity|]. intros body Hb. exact Hb.
    - destruct (Ascii.eqb x backslash) eqn:Eb.
      + right. exists true. split; [reflexivity|].
        intros body Hb. simpl. rewrite ?Eb. exact Hb.
      + destruct (Ascii.eqb x quote) eqn:Eq.
        * left. apply Ascii.eqb_eq in Eq. now repeat split.
        * right. exists false. split; [reflexivity|].
          intros body Hb. simpl. rewrite ?Eb, ?Eq. exact Hb. }
  destruct Hcase as [(-> & -> & ->)|(esc' & -> & Hlit)]; cbn [depthOf];
    destruct (Z.eqb_spec d 0) as [Hc|_]; try contradiction.
  - destruct (closeAt (mkScan d false false) t) as [k'|] eqn:E;
      [|discriminate].
    intros [= <-]. exists EmptyString, t, k'. now repeat split.
  - destruct (closeAt (mkScan d true esc') t) as [k1|] eqn:E; [|discriminate].
    intros [= <-].
    destruct (IH _ _ _ Hd E) as (body & t' & k' & -> & Hb & Hc & ->).
    exists (String x body), t', k'. split; [reflexivity|].
    split; [now apply Hlit|]. split; [exact Hc|]. simpl. lia.
Qed.

(** The bytes between an opening bracket and the closing bracket at which
    the scan stops are balanced contents. *)
Lemma closeAt_balanced (bound : nat) :
  forall t,
    (String.length t <= bound)%nat ->
    closeAt opened t = Some (String.length t) ->
    exists n, t = n ++ String rbracket EmptyString /\ Balanced n.
Proof.
  induction bound as [|bound IH]; intros t Hlen Hc.
  - destruct t; [discriminate|simpl in Hlen; lia].
  - destruct t as [|x t]; [discriminate|]. simpl in Hlen.
    destruct (Ascii.eqb_spec x quote) as [->|Hq].
    { rewrite closeAt_cons in Hc by (simpl; lia).
      change (step opened quote) with (mkScan 1 true false) in Hc.
      destruct (closeAt (mkScan 1 true false) t) as [k|] eqn:E;
        [|discriminate].
      injection Hc as Hk. apply literal_split in E; [|lia].
      destruct E as (body & t' & k' & -> & Hb & Hc' & ->).
      rewrite length_append in Hk, Hlen. simpl in Hk, Hlen.
      assert (k' = String.length t') by lia. subst k'.
      destruct (IH t' ltac:(lia) Hc') as (n & -> & Hn).
      exists (String quote (body ++ String quote EmptyString) ++ n).
      split.
      - simpl. f_equal. now rewrite !append_assoc.
      - apply BalancedApp; [now apply BalancedLiteral|exact Hn]. }
    destruct (Ascii.eqb_spec x lbracket) as [->|Hl].
    { rewrite closeAt_cons in Hc by (simpl; lia).
      change (step opened lbracket) with (deeper opened) in Hc.
      destruct (closeAt (deeper opened) t) as [k|] eqn:E; [|discriminate].
      injection Hc as Hk. subst k.
      destruct (closeAt opened t) as [k1|] eqn:E1.
      2:{ rewrite (closeAt_deeper_None t opened) in E by (simpl; lia || auto).
          discriminate. }
      rewrite (closeAt_deeper t opened k1) in E by (simpl; auto; lia).
      pose proof (closeAt_bound _ _ _ E1) as Hk1.
      destruct (closeAt opened (dropBytes k1 t)) as [k2|] eqn:E2;
        [|discriminate].
      injection E as Hk.
      assert (Hb : k2 = String.length (dropBytes k1 t))
        by (rewrite dropBytes_length; lia).
      rewrite Hb in E2.
      apply closeAt_prefix in E1 as Ea.
      rewrite <- (substring_length k1 t) in Ea at 2 by lia.
      destruct (IH (substring 0 k1 t)
                  ltac:(rewrite substring_length; lia) Ea) as (n1 & Hn1 & B1).
      destruct (IH (dropBytes k1 t)
                  ltac:(rewrite dropBytes_length; lia) E2) as (n2 & Hn2 & B2).
      exists (String lbracket (n1 ++ String rbracket EmptyString) ++ n2).
      split.
      - rewrite (substring_dropBytes_split k1 t) at 1.
        rewrite Hn1, Hn2. simpl. f_equal. now rewrite !append_assoc.
      - apply BalancedApp; [now apply BalancedArray|exact B2]. }
    destruct (Ascii.eqb_spec x rbracket) as [->|Hr].
    { simpl in Hc. injection Hc as Hk. destruct t; [|discriminate].
      exists EmptyString. split; [reflexivity|constructor]. }
    assert (Hs : step opened x = opened).
    { unfold step; simpl.
      destruct (Ascii.eqb_spec x quote); [contradiction|].
      destruct (Ascii.eqb_spec x lbracket); [contradiction|].
      now destruct (Ascii.eqb_spec x rbracket). }
    rewrite closeAt_cons in Hc by (rewrite Hs; simpl; lia).
    rewrite Hs in Hc.
    destruct (closeAt opened t) as [k|] eqn:E; [|discriminate].
    injection Hc as Hk. subst k.
    destruct (IH t ltac:(lia) E) as (n & -> & Hn).
    exists (String x EmptyString ++ n). split; [reflexivity|].
    apply BalancedApp; [|exact Hn]. apply BalancedByte.
    unfold inertByte.
    destruct (Ascii.eqb_spec x quote); [contradiction|].
    destruct (Ascii.eqb_spec x lbracket); [contradiction|].
    now destruct (Ascii.eqb_spec x rbracket).
Qed.

(** X5.  Whatever the extractor returns is an array of the grammar: an
    opening bracket, balanced contents and a closing bracket, never a
    truncated or partly quoted array. *)
Theorem extractJSONArray_returns_balanced (input candidate : string) :
  extractJSONArray input = (candidate, true) ->
  exists n, candidate = array n /\ Balanced n.
Proof.
  intros H. apply extractJSONArray_found in H.
  destruct H as (pre & rest & k & _ & _ & Hc & ->).
  pose proof (closeAt_bound _ _ _ Hc) as Hk.
  apply closeAt_prefix in Hc.
  rewrite <- (substring_length k rest) in Hc at 2 by lia.
  destruct (closeAt_balanced _ _ (le_n _) Hc) as (n & Hn & B).
  exists n. split; [|exact B]. unfold array. now rewrite Hn.
Qed.

Lemma extractJSONArray_returns_balanced_witness :
  extractJSONArray "ab [1,[2],3] tail ]" = ("[1,[2],3]", true)
  /\ exists n, "[1,[2],3]" = array n /\ Balanced n.
Proof.
  split; [reflexivity|].
  exact (extractJSONArray_returns_balanced "ab [1,[2],3] tail ]" "[1,[2],3]"
           eq_refl).
Defined.

End ExtractorSound.

(** ** More on the recognizer *)

Lemma runesFrom_length (s : string) :
  forall skip, (List.length (UTF8.runesFrom skip s) <= String.length s)%nat.
Proof.
  induction s as [|c s IH]; intros skip; [simpl; lia|].
  cbn [UTF8.runesFrom String.length].
  destruct skip as [|skip].
  - destruct (UTF8.DecodeRuneInString (String c s)) as [r size].
    cbn [List.length]. specialize (IH (size - 1)%nat). lia.
  - specialize (IH skip). lia.
Qed.

Lemma runes_ascii (s : string) :
  ASCIIText.allASCII s = true -> UTF8.runes s = codePoints s.
Proof.
  unfold UTF8.runes. induction s as [|c s IH]; intros H; [reflexivity|].
  simpl in H. apply andb_prop in H as [Hc Hs].
  simpl UTF8.runesFrom. unfold UTF8.RuneSelf. rewrite Hc. simpl.
  now rewrite IH.
Qed.

Lemma codePoints_inj (a b : string) : codePoints a = codePoints b -> a = b.
Proof.
  revert b. induction a as [|x a IH]; intros [|y b] H; simpl in H;
    try discriminate; [reflexivity|].
  injection H as Hx Hr. apply byteVal_inj in Hx. subst y.
  now rewrite (IH _ Hr).
Qed.

Lemma letters_app (a b : string) :
  ASCIIText.letters (a ++ b) = ASCIIText.letters a ++ ASCIIText.letters b.
Proof.
  induction a as [|x a IH]; simpl; [reflexivity|].
  destruct (ASCIIText.isLetterByte x); simpl; now rewrite IH.
Qed.

Lemma letters_letterFree (n : string) :
  ASCIIText.letterFree n = true -> ASCIIText.letters n = EmptyString.
Proof.
  induction n as [|x n IH]; simpl; [reflexivity|].
  intros H. apply andb_prop in H as [Hx Hn].
  apply negb_true_iff in Hx. rewrite Hx. now apply IH.
Qed.

Lemma allASCII_app (a b : string) :
  ASCIIText.allASCII (a ++ b)
  = ASCIIText.allASCII a && ASCIIText.allASCII b.
Proof.
  induction a as [|x a IH]; simpl; [reflexivity|].
  now rewrite IH, andb_assoc.
Qed.

Section RecognizerLaws.
Context {U : UnicodeTables}.

Lemma letterSkeleton_length (input : string) :
  (List.length (letterSkeleton input) <= String.length input)%nat.
Proof.
  unfold letterSkeleton. rewrite length_map.
  pose proof (filter_length_le Unicode.IsLetter (UTF8.runes input)).
  pose proof (runesFrom_length input 0). unfold UTF8.runes in *. lia.
Qed.

(** On ASCII text the letters the recognizer keeps are the ASCII letters
    of the text, in lower case: no table is read. *)
Lemma letterSkeleton_ascii (s : string) :
  ASCIIText.allASCII s = true ->
  letterSkeleton s = codePoints (ASCIIText.letters s).
Proof.
  intros H. unfold letterSkeleton. rewrite (runes_ascii _ H).
  induction s as [|c s IH]; [reflexivity|].
  simpl in H. apply andb_prop in H as [Hc Hs]. apply Z.ltb_lt in Hc.
  pose proof (byteVal_range c) as Hr.
  simpl codePoints. simpl filter.
  assert (Ha : Unicode.isASCII (byteVal c) = true).
  { unfold Unicode.isASCII. apply andb_true_intro.
    split; apply Z.leb_le; lia. }
  assert (Hl : (byteVal c <=? 0x7F)%Z = true) by (apply Z.leb_le; lia).
  unfold Unicode.IsLetter at 1. rewrite Ha.
  change (UTF8.between 65 90 (byteVal c) || UTF8.between 97 122 (byteVal c))
    with (ASCIIText.isLetterByte c).
  simpl ASCIIText.letters.
  destruct (ASCIIText.isLetterByte c); [|now apply IH].
  simpl. rewrite (IH Hs). f_equal.
  unfold Unicode.ToLower, ASCIIText.lowerByte. rewrite Hl.
  destruct (UTF8.between 65 90 (byteVal c)) eqn:Hu; [|reflexivity].
  rewrite byteVal_byteOf. unfold UTF8.between in Hu.
  apply andb_prop in Hu as [_ Hu]. apply Z.leb_le in Hu.
  symmetry. apply Z.mod_small. lia.
Qed.

(** The verdict is a function of the letters kept. *)
Lemma looksLikeFalseLiteral_same_skeleton (s t : string) :
  letterSkeleton s = letterSkeleton t ->
  looksLikeFalseLiteral s = looksLikeFalseLiteral t.
Proof.
  intros H. unfold looksLikeFalseLiteral.
  now rewrite !normalizedOf_skeleton, H.
Qed.

(** X6.  The recognizer never accepts a text shorter than four bytes, in
    whatever encoding and for whatever Unicode tables. *)
Theorem looksLikeFalseLiteral_at_least_four_bytes (input : string) :
  looksLikeFalseLiteral input = true -> (4 <= String.length input)%nat.
Proof.
  intros H. pose proof (letterSkeleton_length input) as Hl.
  apply looksLikeFalseLiteral_skeleton in H as [H|H];
    rewrite H in Hl; simpl in Hl; lia.
Qed.

(** X7.  On ASCII text the recognizer is decided by bytes alone: it
    accepts exactly when the ASCII letters of the text, lowercased and taken
    in order, spell false or flse. *)
Theorem looksLikeFalseLiteral_on_ascii (s : string) :
  ASCIIText.allASCII s = true ->
  looksLikeFalseLiteral s
  = String.eqb (ASCIIText.letters s) "false"
    || String.eqb (ASCIIText.letters s) "flse".
Proof.
  intros H. pose proof (letterSkeleton_ascii s H) as Hs.
  pose proof (looksLikeFalseLiteral_skeleton s) as Hiff. rewrite Hs in Hiff.
  destruct (String.eqb_spec (ASCIIText.letters s) "false") as [E|NE].
  - apply Hiff. left. now rewrite E.
  - destruct (String.eqb_spec (ASCIIText.letters s) "flse") as [E|NE'].
    + apply Hiff. right. now rewrite E.
    + destruct (looksLikeFalseLiteral s); [|reflexivity].
      destruct (proj1 Hiff eq_refl) as [E|E]; apply codePoints_inj in E;
        contradiction.
Qed.

(** X8.  On ASCII text the verdict is blind to everything that is not a
    letter: inserting digits, blanks, quotes, brackets or any other
    letter-free ASCII text anywhere changes nothing. *)
Theorem looksLikeFalseLiteral_ignores_noise (a noise b : string) :
  ASCIIText.allASCII a = true ->
  ASCIIText.allASCII noise = true ->
  ASCIIText.allASCII b = true ->
  ASCIIText.letterFree noise = true ->
  looksLikeFalseLiteral (a ++ noise ++ b) = looksLikeFalseLiteral (a ++ b).
Proof.
  intros Ha Hn Hb Hf. apply looksLikeFalseLiteral_same_skeleton.
  rewrite !letterSkeleton_ascii
    by (rewrite ?allASCII_app, ?Ha, ?Hn, ?Hb; reflexivity).
  now rewrite !letters_app, (letters_letterFree _ Hf).
Qed.

End RecognizerLaws.

Lemma looksLikeFalseLiteral_at_least_four_bytes_witness :
  Sample.recognize "f4lse" = true /\ (4 <= String.length "f4lse")%nat.
Proof.
  split; [reflexivity|].
  exact (@looksLikeFalseLiteral_at_least_four_bytes Sample.tables "f4lse"
           eq_refl).
Defined.

Lemma looksLikeFalseLiteral_on_ascii_witness :
  ASCIIText.allASCII " [F-4-L.s:E] " = true
  /\ ASCIIText.letters " [F-4-L.s:E] " = "flse"
  /\ Sample.recognize " [F-4-L.s:E] " = true.
Proof.
  split; [reflexivity|]. split; [reflexivity|].
  exact (@looksLikeFalseLiteral_on_ascii Sample.tables " [F-4-L.s:E] "
           eq_refl).
Defined.

Lemma looksLikeFalseLiteral_ignores_noise_witness :
  Sample.recognize ("fa" ++ " [4] " ++ "lse") = Sample.recognize ("fa" ++ "lse").
Proof.
  exact (@looksLikeFalseLiteral_ignores_noise Sample.tables
           "fa" " [4] " "lse" eq_refl eq_refl eq_refl eq_refl).
Defined.

(** ** More on the decoder *)

Section DecoderLaws.
Context {U : UnicodeTables} {L : Library}.

(** The decoder takes one of the nine runs. *)
Lemma UnmarshalFileList_run (sr : ServerResponse) :
  DecoderRun sr (UnmarshalFileList sr).
Proof.
  destruct (FileListMode sr) as [mode|] eqn:Hm.
  2:{ unfold UnmarshalFileList. rewrite Hm. apply RunMissingInput.
      now left. }
  destruct (FileList sr) as [payload|] eqn:Hp.
  2:{ unfold UnmarshalFileList. rewrite Hm, Hp. apply RunMissingInput.
      now right. }
  destruct (mode_cases mode) as [->|[[Hns ->]|[Hns Hnj]]].
  - destruct (unmarshalString payload) as [rawString|e] eqn:Hs.
    2:{ replace (UnmarshalFileList sr)
          with ([CallUnmarshalString payload],
                @Err FileListValue
                  ("error parsing FileList into string: " ++ e)).
        - now apply RunEncodingError.
        - unfold UnmarshalFileList, bind, calling, ret.
          rewrite Hm, Hp. simpl. now rewrite Hs. }
    destruct (unmarshalFileDetails (TrimSpace rawString))
      as [fileList|err] eqn:Hd.
    + replace (UnmarshalFileList sr)
        with ([CallUnmarshalString payload;
               CallUnmarshalFileDetails (TrimSpace rawString)],
              Ok (FileDetails fileList)).
      * now apply (RunParsed sr payload rawString).
      * unfold UnmarshalFileList, bind, calling, ret.
        rewrite Hm, Hp. simpl. now rewrite Hs, Hd.
    + rewrite (UnmarshalFileList_enters_recovery sr payload rawString err
                 Hm Hp Hs Hd).
      destruct (extractJSONArray (TrimSpace rawString))
        as [candidate [|]] eqn:He.
      * destruct (unmarshalFileDetails candidate) as [fileList|err2] eqn:Hc.
        -- rewrite (recover_candidate_parses _ _ _ _ He Hc).
           now apply (RunRecovered sr payload rawString err candidate).
        -- rewrite (recover_candidate_fails _ _ _ _ He Hc).
           now apply (RunCandidateRejected sr payload rawString err
                        candidate err2).
      * rewrite (recover_no_candidate _ _ _ He).
        now apply (RunNoCandidate sr payload rawString err candidate).
  - destruct (unmarshalFileListEntries payload) as [entries|e] eqn:He.
    + replace (UnmarshalFileList sr)
        with ([CallUnmarshalFileListEntries payload],
              Ok (FileListEntries entries)).
      * now apply RunEntries.
      * unfold UnmarshalFileList, bind, calling, ret.
        rewrite Hm, Hp. simpl. now rewrite He.
    + replace (UnmarshalFileList sr)
        with ([CallUnmarshalFileListEntries payload],
              @Err FileListValue
                ("error parsing FileList into []FileListEntry: " ++ e)).
      * now apply RunEntriesError.
      * unfold UnmarshalFileList, bind, calling, ret.
        rewrite Hm, Hp. simpl. now rewrite He.
  - replace (UnmarshalFileList sr)
      with (@nil Call, @Err FileListValue ("unknown FileListMode: " ++ mode)).
    + now apply (RunUnknownMode sr mode payload).
    + unfold UnmarshalFileList. rewrite Hm, Hp.
      apply String.eqb_neq in Hns, Hnj. now rewrite Hns, Hnj.
Qed.

Lemma lastResort_Ok (trimmed err : string) (v : FileListValue) :
  lastResort trimmed err = Ok v ->
  v = FileDetails [] /\ looksLikeFalseLiteral trimmed = true.
Proof.
  unfold lastResort. destruct (looksLikeFalseLiteral trimmed);
    [|discriminate].
  intros [= <-]. now split.
Qed.

Lemma lastResort_Err (trimmed err msg : string) :
  lastResort trimmed err = Err msg ->
  msg = "error parsing FileList into []FileDetail: " ++ err
  /\ looksLikeFalseLiteral trimmed = false.
Proof.
  unfold lastResort. destruct (looksLikeFalseLiteral trimmed);
    [discriminate|].
  intros [= <-]. now split.
Qed.

Lemma candidate_is_array (input candidate : string) :
  extractJSONArray input = (candidate, true) ->
  exists n, candidate = Balance.array n /\ Balance.Balanced n.
Proof.
  intros H. apply extractJSONArray_found in H.
  destruct H as (pre & rest & k & _ & _ & Hc & ->).
  pose proof (closeAt_bound _ _ _ Hc) as Hk.
  apply closeAt_prefix in Hc.
  rewrite <- (substring_length k rest) in Hc at 2 by lia.
  destruct (closeAt_balanced _ _ (le_n _) Hc) as (n & Hn & B).
  exists n. split; [|exact B]. unfold Balance.array. now rewrite Hn.
Qed.

(** X9.  The decoder never invents data.  A FileDetail list it returns is
    what [json.Unmarshal] produced for the trimmed text, or what it produced
    for the extracted candidate, which is then a complete bracket-balanced
    array, or else it is the empty list the recognizer stands for after
    every parse has failed. *)
Theorem UnmarshalFileList_details_provenance (sr : ServerResponse)
    (fileList : list FileDetail) :
  resultOf (UnmarshalFileList sr) = Ok (FileDetails fileList) ->
  detailsProvenance sr fileList.
Proof.
  unfold detailsProvenance. intros H. pose proof (UnmarshalFileList_run sr) as R.
  remember (UnmarshalFileList sr) as run eqn:E in *. clear E.
  destruct R as
    [ Hmiss | mode payload Hm Hp Hns Hnj | payload entries' Hm Hp He
    | payload err Hm Hp He | payload err Hm Hp Hs
    | payload rawString l Hm Hp Hs Hd
    | payload rawString err candidate l Hm Hp Hs Hd He Hc
    | payload rawString err candidate err2 Hm Hp Hs Hd He Hc
    | payload rawString err candidate Hm Hp Hs Hd He ];
    unfold resultOf in H; simpl in H; try discriminate.
  - injection H as ->.
    exists payload, rawString. repeat split; try assumption. now left.
  - injection H as ->.
    exists payload, rawString. repeat split; try assumption.
    right; left.
    destruct (candidate_is_array _ _ He) as (n & -> & B).
    now exists err, n.
  - apply lastResort_Ok in H as [[= ->] Hl].
    exists payload, rawString. repeat split; try assumption.
    right; right. split; [reflexivity|].
    split; [now exists err|]. split; [|assumption].
    intros c Hc'. rewrite He in Hc'. injection Hc' as <-. now exists err2.
  - apply lastResort_Ok in H as [[= ->] Hl].
    exists payload, rawString. repeat split; try assumption.
    right; right. split; [reflexivity|].
    split; [now exists err|]. split; [|assumption].
    intros c Hc'. rewrite He in Hc'. discriminate.
Qed.

(** X10.  The dynamic type of the value returned is fixed by the mode: a
    FileListEntry list comes from the json mode only and is the list
    [json.Unmarshal] produced for the raw payload, and the json mode never
    returns a FileDetail list. *)
Theorem UnmarshalFileList_result_type (sr : ServerResponse) :
  (forall entries,
      resultOf (UnmarshalFileList sr) = Ok (FileListEntries entries) ->
      exists payload,
        FileListMode sr = Some "json" /\ FileList sr = Some payload
        /\ unmarshalFileListEntries payload = Ok entries)
  /\ (forall fileList,
        resultOf (UnmarshalFileList sr) = Ok (FileDetails fileList) ->
        FileListMode sr = Some "string").
Proof.
  pose proof (UnmarshalFileList_run sr) as R.
  remember (UnmarshalFileList sr) as run eqn:E in *. clear E.
  split.
  - intros entries H.
    destruct R as
      [ Hmiss | mode payload Hm Hp Hns Hnj | payload entries' Hm Hp He
      | payload err Hm Hp He | payload err Hm Hp Hs
      | payload rawString l Hm Hp Hs Hd
      | payload rawString err candidate l Hm Hp Hs Hd He Hc
      | payload rawString err candidate err2 Hm Hp Hs Hd He Hc
      | payload rawString err candidate Hm Hp Hs Hd He ];
      unfold resultOf in H; simpl in H; try discriminate.
    + injection H as ->. now exists payload.
    + apply lastResort_Ok in H as [Hv _]. discriminate.
    + apply lastResort_Ok in H as [Hv _]. discriminate.
  - intros fileList H.
    destruct R; unfold resultOf in H; simpl in H; try discriminate;
      assumption.
Qed.

(** X11.  Every error the decoder returns is of one of five kinds, and
    each kind carries what identifies the failure: the mode value, or the
    message of the [json.Unmarshal] call that failed first.  An error about
    the FileDetail array is returned only for a text the recognizer
    rejects. *)
Theorem UnmarshalFileList_error_kinds (sr : ServerResponse) (msg : string) :
  resultOf (UnmarshalFileList sr) = Err msg ->
  errorKind sr msg.
Proof.
  unfold errorKind. intros H. pose proof (UnmarshalFileList_run sr) as R.
  remember (UnmarshalFileList sr) as run eqn:E in *. clear E.
  destruct R as
    [ Hmiss | mode payload Hm Hp Hns Hnj | payload entries' Hm Hp He
    | payload err Hm Hp He | payload err Hm Hp Hs
    | payload rawString l Hm Hp Hs Hd
    | payload rawString err candidate l Hm Hp Hs Hd He Hc
    | payload rawString err candidate err2 Hm Hp Hs Hd He Hc
    | payload rawString err candidate Hm Hp Hs Hd He ];
    unfold resultOf in H; simpl in H; try discriminate.
  - injection H as <-. now left.
  - injection H as <-. right; left. now exists mode.
  - injection H as <-. right; right; left. now exists payload, err.
  - injection H as <-. right; right; right; left. now exists payload, err.
  - apply lastResort_Err in H as [-> Hl].
    right; right; right; right. now exists payload, rawString, err.
  - apply lastResort_Err in H as [-> Hl].
    right; right; right; right. now exists payload, rawString, err.
Qed.

End DecoderLaws.

Section DecoderProtocol.
Context {U : UnicodeTables} {L : Library}.



End DecoderProtocol.

Section DecoderLawRuns.
Import Sample.
#[local] Existing Instance tables.
#[local] Existing Instance library.

Lemma UnmarshalFileList_details_provenance_witness :
  resultOf (decode (response "string" (quoted "[{}] some trailing text")))
  = Ok (details [tt])
  /\ @detailsProvenance tables library
       (response "string" (quoted "[{}] some trailing text")) [tt].
Proof.
  split; [reflexivity|].
  exact (@UnmarshalFileList_details_provenance tables library
           (response "string" (quoted "[{}] some trailing text")) [tt]
           eq_refl).
Defined.

Lemma UnmarshalFileList_result_type_witness :
  resultOf (decode (response "json" "[{}]")) = Ok (@FileListEntries library [tt])
  /\ exists payload,
       Some "json" = Some "json" /\ Some "[{}]" = Some payload
       /\ unmarshalFileListEntries payload = Ok [tt].
Proof.
  split; [reflexivity|].
  exact (proj1 (@UnmarshalFileList_result_type tables library
                  (response "json" "[{}]")) [tt] eq_refl).
Defined.

Lemma UnmarshalFileList_error_kinds_witness :
  resultOf (decode (response "string" (quoted "oops [x]")))
  = Err "error parsing FileList into []FileDetail: sample: not a JSON array of records: oops [x]"
  /\ @errorKind tables library (response "string" (quoted "oops [x]"))
       "error parsing FileList into []FileDetail: sample: not a JSON array of records: oops [x]".
Proof.
  split; [reflexivity|].
  exact (@UnmarshalFileList_error_kinds tables library
           (response "string" (quoted "oops [x]")) _ eq_refl).
Defined.


End DecoderLawRuns.

(** ** The identifier generator and the mode validator *)

Lemma digit_value (d : Z) : 0 <= d <= 9 -> byteVal (Strconv.digit d) = 48 + d.
Proof.
  intros H. unfold Strconv.digit. rewrite byteVal_byteOf.
  apply Z.mod_small. lia.
Qed.

Lemma digit_isDigit (d : Z) :
  0 <= d <= 9 -> ASCIIText.isDigitByte (Strconv.digit d) = true.
Proof.
  intros H. unfold ASCIIText.isDigitByte, UTF8.between.
  rewrite digit_value by exact H.
  apply andb_true_intro. split; apply Z.leb_le; lia.
Qed.

Lemma formatBits_app (fuel : nat) :
  forall (u : Z) (buf : string),
    Strconv.formatBits fuel u buf
    = Strconv.formatBits fuel u EmptyString ++ buf.
Proof.
  induction fuel as [|fuel IH]; intros u buf; simpl; [reflexivity|].
  destruct (u <? 10)%Z; [reflexivity|].
  rewrite (IH _ (String _ buf)), (IH _ (String _ EmptyString)).
  now rewrite append_assoc.
Qed.

Lemma decimalFrom_app (a b : string) (acc : Z) :
  ASCIIText.decimalFrom acc (a ++ b)
  = ASCIIText.decimalFrom (ASCIIText.decimalFrom acc a) b.
Proof.
  revert acc. induction a as [|x a IH]; intros acc; simpl;
    [reflexivity|apply IH].
Qed.

(** The digits written denote the number formatted. *)
Lemma formatBits_value (fuel : nat) :
  forall u,
    0 <= u < 10 ^ Z.of_nat fuel ->
    ASCIIText.decimalValue (Strconv.formatBits fuel u EmptyString) = u.
Proof.
  unfold ASCIIText.decimalValue.
  induction fuel as [|fuel IH]; intros u Hu.
  - simpl in *. lia.
  - rewrite Nat2Z.inj_succ, Z.pow_succ_r in Hu by lia.
    simpl Strconv.formatBits.
    destruct (Z.ltb_spec u 10) as [Hlt|Hge].
    + simpl. rewrite digit_value by lia. lia.
    + rewrite formatBits_app, decimalFrom_app.
      rewrite IH by (split; [apply Z.div_pos; lia
                            |apply Z.div_lt_upper_bound; lia]).
      simpl. pose proof (Z.mod_pos_bound u 10 ltac:(lia)) as Hm.
      rewrite digit_value by lia.
      pose proof (Z.div_mod u 10 ltac:(lia)). lia.
Qed.

Lemma formatBits_digits (fuel : nat) :
  forall (u : Z) (buf : string),
    0 <= u -> ASCIIText.allDigits buf = true ->
    ASCIIText.allDigits (Strconv.formatBits fuel u buf) = true.
Proof.
  induction fuel as [|fuel IH]; intros u buf Hu Hb; simpl; [exact Hb|].
  destruct (Z.ltb_spec u 10) as [Hlt|Hge].
  - simpl. now rewrite digit_isDigit, Hb by lia.
  - apply IH; [apply Z.div_pos; lia|].
    simpl. pose proof (Z.mod_pos_bound u 10 ltac:(lia)) as Hm.
    now rewrite digit_isDigit, Hb by lia.
Qed.

Lemma formatBits_length (fuel : nat) :
  forall (n : nat) (u : Z) (buf : string),
    (1 <= n <= fuel)%nat -> 0 <= u < 10 ^ Z.of_nat n ->
    (String.length buf + 1 <= String.length (Strconv.formatBits fuel u buf)
     <= String.length buf + n)%nat.
Proof.
  induction fuel as [|fuel IH]; intros n u buf Hn Hu; [lia|].
  simpl Strconv.formatBits.
  destruct (Z.ltb_spec u 10) as [Hlt|Hge]; [simpl; lia|].
  destruct n as [|n]; [lia|].
  rewrite Nat2Z.inj_succ, Z.pow_succ_r in Hu by lia.
  destruct n as [|n]; [simpl in Hu; lia|].
  specialize (IH (S n) (u / 10) (String (Strconv.digit (u mod 10)) buf)
                ltac:(lia)
                ltac:(split; [apply Z.div_pos; lia
                             |apply Z.div_lt_upper_bound; lia])).
  simpl String.length in IH. lia.
Qed.

(** The first digit written for a positive number is not zero. *)
Lemma formatBits_head (fuel : nat) :
  forall (u : Z) (buf : string),
    1 <= u < 10 ^ Z.of_nat fuel ->
    exists d t,
      Strconv.formatBits fuel u buf = String (Strconv.digit d) t
      /\ 1 <= d <= 9.
Proof.
  induction fuel as [|fuel IH]; intros u buf Hu.
  - simpl in Hu. lia.
  - rewrite Nat2Z.inj_succ, Z.pow_succ_r in Hu by lia.
    simpl Strconv.formatBits.
    destruct (Z.ltb_spec u 10) as [Hlt|Hge].
    + exists u, buf. split; [reflexivity|lia].
    + apply IH. split; [|apply Z.div_lt_upper_bound; lia].
      apply Z.div_le_lower_bound; lia.
Qed.

Lemma GenerateUID_value (draw : Z) :
  0 <= draw < 4294967294 ->
  ASCIIText.decimalValue (GenerateUID draw) = draw + 1.
Proof.
  intros H. unfold GenerateUID, Strconv.Itoa. cbv zeta.
  destruct (Z.ltb_spec (draw + 1) 0) as [Hneg|_]; [lia|].
  apply formatBits_value. split; [lia|].
  change (10 ^ Z.of_nat 20) with 100000000000000000000. lia.
Qed.

(** X14.  For every number that [rand.Intn(4294967294)] can return,
    [GenerateUID] returns the decimal text of that number plus one: between
    one and ten digits and nothing else, no leading zero, denoting a value
    from 1 to 4294967294, so never the reserved 0 and always within an
    unsigned 32-bit integer. *)
Theorem GenerateUID_format (draw : Z) :
  0 <= draw < 4294967294 ->
  ASCIIText.decimalValue (GenerateUID draw) = draw + 1
  /\ 1 <= ASCIIText.decimalValue (GenerateUID draw) <= 4294967294
  /\ ASCIIText.decimalValue (GenerateUID draw) < 2 ^ 32
  /\ ASCIIText.allDigits (GenerateUID draw) = true
  /\ (1 <= String.length (GenerateUID draw) <= 10)%nat
  /\ String.get 0 (GenerateUID draw) <> Some "0"%char.
Proof.
  intros H. pose proof (GenerateUID_value draw H) as Hv.
  split; [exact Hv|]. rewrite Hv. split; [lia|].
  split; [change (2 ^ 32) with 4294967296; lia|].
  unfold GenerateUID, Strconv.Itoa. cbv zeta.
  destruct (Z.ltb_spec (draw + 1) 0) as [Hneg|_]; [lia|].
  split; [apply formatBits_digits; [lia|reflexivity]|]. split.
  - pose proof (formatBits_length 20 10 (draw + 1) EmptyString
                  ltac:(lia)
                  ltac:(change (10 ^ Z.of_nat 10) with 10000000000; lia))
      as Hl.
    change (String.length EmptyString) with 0%nat in Hl. lia.
  - destruct (formatBits_head 20 (draw + 1) EmptyString) as (d & t & -> & Hd).
    { change (10 ^ Z.of_nat 20) with 100000000000000000000. lia. }
    cbn [String.get]. intros E. injection E as E.
    apply (f_equal byteVal) in E. rewrite digit_value in E by lia.
    change (byteVal "0"%char) with 48 in E. lia.
Qed.

Lemma GenerateUID_format_witness :
  0 <= 4294967293 < 4294967294
  /\ GenerateUID 4294967293 = "4294967294"
  /\ ASCIIText.decimalValue (GenerateUID 4294967293) = 4294967293 + 1.
Proof.
  assert (H : 0 <= 4294967293 < 4294967294) by lia.
  split; [exact H|]. split; [reflexivity|].
  exact (proj1 (GenerateUID_format 4294967293 H)).
Defined.

(** X15.  Distinct draws give distinct identifiers: two identifiers
    collide only if the random source returned the same number twice. *)
Theorem GenerateUID_injective (draw1 draw2 : Z) :
  0 <= draw1 < 4294967294 ->
  0 <= draw2 < 4294967294 ->
  GenerateUID draw1 = GenerateUID draw2 ->
  draw1 = draw2.
Proof.
  intros H1 H2 E.
  pose proof (GenerateUID_value draw1 H1) as V1.
  pose proof (GenerateUID_value draw2 H2) as V2.
  rewrite E in V1. lia.
Qed.

Lemma GenerateUID_injective_witness :
  GenerateUID 41 = GenerateUID 41 /\ 41 = 41.
Proof.
  split; [reflexivity|].
  exact (GenerateUID_injective 41 41 ltac:(lia) ltac:(lia) eq_refl).
Defined.

Lemma modeLoop_In (modes : list string) (modeToCheck : string) :
  modeLoop modes modeToCheck = true <-> In modeToCheck modes.
Proof.
  induction modes as [|mode rest IH]; simpl.
  - split; [discriminate|contradiction].
  - destruct (String.eqb_spec mode modeToCheck) as [->|Hne].
    + split; [now left|reflexivity].
    + rewrite IH. split; [now right|]. intros [H|H]; [contradiction|exact H].
Qed.

(** X16.  [ValidateRecordingMode] accepts exactly the three modes
    individual, mix and web, byte for byte: a mode it accepts is made of
    lowercase ASCII letters only, so a capital letter, a blank or any other
    byte anywhere in the text makes it reject. *)
Theorem ValidateRecordingMode_exact (modeToCheck : string) :
  (ValidateRecordingMode modeToCheck = true <->
   modeToCheck = "individual" \/ modeToCheck = "mix" \/ modeToCheck = "web")
  /\ (ValidateRecordingMode modeToCheck = true ->
      ASCIIText.allASCII modeToCheck = true
      /\ ASCIIText.letters modeToCheck = modeToCheck).
Proof.
  assert (Hiff : ValidateRecordingMode modeToCheck = true <->
                 modeToCheck = "individual" \/ modeToCheck = "mix"
                 \/ modeToCheck = "web").
  { unfold ValidateRecordingMode. rewrite modeLoop_In. simpl.
    intuition congruence. }
  split; [exact Hiff|].
  intros H. apply Hiff in H. destruct H as [ -> | [ -> | -> ] ]; now split.
Qed.

Lemma ValidateRecordingMode_exact_witness :
  ValidateRecordingMode "mix" = true
  /\ ASCIIText.allASCII "mix" = true /\ ASCIIText.letters "mix" = "mix".
Proof.
  split; [reflexivity|].
  exact (proj2 (ValidateRecordingMode_exact "mix") eq_refl).
Defined.
